(** * Chinese-railways network scripts: a shallow embedding and its properties

    The development follows three scripts of the repository:

    - [analysis/assign_provinces_by_geo.py]  (module [AssignProvinces]),
    - [network/build network.py]             (module [BuildNetwork]),
    - [analysis/build and plot the network.py] (module [BuildAndPlot]).

    Python values are modelled as the scripts see them after [pd.read_csv]:
    a cell is [None], an integer, a binary64 float (a missing cell is the
    float NaN) or a string of Unicode code points.  Exceptions are explicit:
    a computation returns [Ok v] or [Raise e]. *)

From Stdlib Require Import ZArith Floats List String Ascii DecimalString.
From stdpp Require Import gmap list.
Import ListNotations.

Local Open Scope Z_scope.

(** ** Python values *)

(** A Python [str]: its sequence of code points. *)
Definition pystr : Type := list N.

(** An ASCII literal as a Python string. *)
Definition py (s : string) : pystr :=
  map N_of_ascii (list_ascii_of_string s).

Inductive value : Type :=
| VNone
| VInt (z : Z)
| VFloat (f : float)
| VStr (s : pystr).

(** Station identifiers are the integers or strings of an id column; they
    are dictionary keys and graph nodes. *)
Inductive ident : Type :=
| IdInt (z : Z)
| IdStr (s : pystr).

#[global] Instance ident_eq_dec : EqDecision ident.
Proof. solve_decision. Defined.

Definition ident_to_sum (i : ident) : Z + pystr :=
  match i with IdInt z => inl z | IdStr s => inr s end.

Definition ident_of_sum (x : Z + pystr) : ident :=
  match x with inl z => IdInt z | inr s => IdStr s end.

#[global] Instance ident_countable : Countable ident.
Proof.
  apply (inj_countable' ident_to_sum ident_of_sum).
  intros []; reflexivity.
Defined.

Inductive exn : Type :=
| ValueError
| TypeError
| OverflowError
| ZeroDivisionError
| IndexError.

Inductive res (A : Type) : Type :=
| Ok (a : A)
| Raise (e : exn).

Arguments Ok {A} a.
Arguments Raise {A} e.

Definition bind {A B : Type} (m : res A) (k : A -> res B) : res B :=
  match m with
  | Ok a => k a
  | Raise e => Raise e
  end.

Notation "'let*' x ':=' m 'in' k" := (bind m (fun x => k))
  (at level 10, x name, m at level 100, k at level 200).

(** [for x in xs: st = body(st, x)], stopping at the first exception. *)
Fixpoint for_each {A S : Type} (body : S -> A -> res S) (xs : list A) (st : S)
  : res S :=
  match xs with
  | [] => Ok st
  | x :: xs' => let* st' := body st x in for_each body xs' st'
  end.

(** [pd.isna] / [pd.notna] on a scalar. *)
Definition pd_isna (v : value) : bool :=
  match v with
  | VNone => true
  | VFloat f => is_nan f
  | VInt _ | VStr _ => false
  end.

Definition pd_notna (v : value) : bool := negb (pd_isna v).

(** Truth value of an identifier, and of the result of [dict.get]
    ([None] when the key is absent). *)
Definition truthy (i : ident) : bool :=
  match i with
  | IdInt z => negb (z =? 0)
  | IdStr s => match s with [] => false | _ :: _ => true end
  end.

Definition truthy_opt (o : option ident) : bool :=
  match o with
  | Some i => truthy i
  | None => false
  end.

(** Functions of the Python runtime, of [unicodedata] and of NumPy that the
    scripts call and that are not defined in the repository. *)
Class PyLib : Type := {
  NFKC : pystr -> pystr;                 (* unicodedata.normalize('NFKC', s) *)
  str_lower : pystr -> pystr;            (* str.lower *)
  float_str : float -> pystr;            (* str(x) for a float x *)
  float_of_str : pystr -> option float;  (* float(s); None is ValueError *)
  int_of_str : pystr -> option Z;        (* int(s); None is ValueError *)
  np_sin : float -> float;
  np_cos : float -> float;
  np_arcsin : float -> float
}.

(** The integer [z] rounded to the nearest binary64 float. *)
Definition float_of_Z (z : Z) : float :=
  SF2Prim (binary_normalize prec emax z 0 false).

(** [float(v)]. *)
Definition py_float `{PyLib} (v : value) : res float :=
  match v with
  | VNone => Raise TypeError
  | VInt z =>
      let f := float_of_Z z in
      if is_infinity f then Raise OverflowError else Ok f
  | VFloat f => Ok f
  | VStr s =>
      match float_of_str s with
      | Some f => Ok f
      | None => Raise ValueError
      end
  end.

(** A finite float truncated towards zero. *)
Definition trunc_float (f : float) : Z :=
  match Prim2SF f with
  | S754_finite s m e =>
      let a := if 0 <=? e then Zpos m * 2 ^ e else Zpos m / 2 ^ (- e) in
      if s then - a else a
  | _ => 0
  end.

(** [int(v)]. *)
Definition py_int `{PyLib} (v : value) : res Z :=
  match v with
  | VNone => Raise TypeError
  | VInt z => Ok z
  | VFloat f =>
      if is_nan f then Raise ValueError
      else if is_infinity f then Raise OverflowError
      else Ok (trunc_float f)
  | VStr s =>
      match int_of_str s with
      | Some z => Ok z
      | None => Raise ValueError
      end
  end.

(** Decimal digits of an integer, as [str(n)] prints them. *)
Definition int_str (z : Z) : pystr :=
  py (DecimalString.NilZero.string_of_int (Z.to_int z)).

(** [str(v)]. *)
Definition py_str `{PyLib} (v : value) : pystr :=
  match v with
  | VNone => py "None"
  | VInt z => int_str z
  | VFloat f => float_str f
  | VStr s => s
  end.

(** ** analysis/assign_provinces_by_geo.py *)

Module AssignProvinces.

Local Open Scope float_scope.

(** [np.deg2rad]: multiplication by pi/180. *)
Definition deg2rad (x : float) : float :=
  x * (0x1.921fb54442d18p+1 / 180).

(** One element of [haversine]'s result: the first point is the scalar
    station, the second a city of the broadcast arrays. *)
Definition haversine_km `{PyLib} (lon1 lat1 lon2 lat2 : float) : float :=
  let lon1 := deg2rad lon1 in
  let lat1 := deg2rad lat1 in
  let lon2 := deg2rad lon2 in
  let lat2 := deg2rad lat2 in
  let dlon := lon2 - lon1 in
  let dlat := lat2 - lat1 in
  let sdlat := np_sin (dlat / 2) in
  let sdlon := np_sin (dlon / 2) in
  let a := sdlat * sdlat + np_cos lat1 * np_cos lat2 * (sdlon * sdlon) in
  let c := 2 * np_arcsin (sqrt a) in
  let R := 6371 in
  R * c.

(** [haversine(lon1, lat1, lon2, lat2)] with array arguments [lon2], [lat2]. *)
Definition haversine `{PyLib} (lon1 lat1 : float) (lon2 lat2 : list float)
  : list float :=
  zip_with (haversine_km lon1 lat1) lon2 lat2.

(** [np.argmin] on a float array: the index of the first occurrence of the
    minimum, a NaN counting as minimal; the running minimum [mp] sits at
    index [mi], the next element has index [i].  An empty array raises
    ValueError. *)
Fixpoint argmin_from (mp : float) (mi i : nat) (l : list float) : nat :=
  match l with
  | [] => mi
  | x :: l' =>
      if negb (mp <=? x)
      then if is_nan x then i else argmin_from x i (S i) l'
      else argmin_from mp mi (S i) l'
  end.

Definition np_argmin (l : list float) : res nat :=
  match l with
  | [] => Raise ValueError
  | x :: l' => Ok (if is_nan x then 0%nat else argmin_from x 0 1 l')
  end.

Definition PROVINCE_NAME_MAP : list (pystr * pystr) :=
  [ (py "BEIJING", [21271; 20140; 24066]%N);
    (py "TIANJIN", [22825; 27941; 24066]%N);
    (py "HEBEI", [27827; 21271; 30465]%N);
    (py "SHANXI", [23665; 35199; 30465]%N);
    (py "INNER MONGOLIA", [20869; 33945; 21476; 33258; 27835; 21306]%N);
    (py "NEIMENGGU", [20869; 33945; 21476; 33258; 27835; 21306]%N);
    (py "LIAONING", [36797; 23425; 30465]%N);
    (py "JILIN", [21513; 26519; 30465]%N);
    (py "HEILONGJIANG", [40657; 40857; 27743; 30465]%N);
    (py "SHANGHAI", [19978; 28023; 24066]%N);
    (py "JIANGSU", [27743; 33487; 30465]%N);
    (py "ZHEJIANG", [27993; 27743; 30465]%N);
    (py "ANHUI", [23433; 24509; 30465]%N);
    (py "FUJIAN", [31119; 24314; 30465]%N);
    (py "JIANGXI", [27743; 35199; 30465]%N);
    (py "SHANDONG", [23665; 19996; 30465]%N);
    (py "HENAN", [27827; 21335; 30465]%N);
    (py "HUBEI", [28246; 21271; 30465]%N);
    (py "HUNAN", [28246; 21335; 30465]%N);
    (py "GUANGDONG", [24191; 19996; 30465]%N);
    (py "GUANGXI", [24191; 35199; 22766; 26063; 33258; 27835; 21306]%N);
    (py "HAINAN", [28023; 21335; 30465]%N);
    (py "CHONGQING", [37325; 24198; 24066]%N);
    (py "SICHUAN", [22235; 24029; 30465]%N);
    (py "GUIZHOU", [36149; 24030; 30465]%N);
    (py "YUNNAN", [20113; 21335; 30465]%N);
    (py "TIBET", [35199; 34255; 33258; 27835; 21306]%N);
    (py "XIZANG", [35199; 34255; 33258; 27835; 21306]%N);
    (py "SHAANXI", [38485; 35199; 30465]%N);
    (py "GANSU", [29976; 32899; 30465]%N);
    (py "QINGHAI", [38738; 28023; 30465]%N);
    (py "NINGXIA", [23425; 22799; 22238; 26063; 33258; 27835; 21306]%N);
    (py "XINJIANG", [26032; 30086; 32500; 21566; 23572; 33258; 27835; 21306]%N) ].

(** [PROVINCE_NAME_MAP.get(p, p)]. *)
Definition province_cn (p : value) : value :=
  match p with
  | VStr s =>
      match (list_to_map PROVINCE_NAME_MAP : gmap pystr pystr) !! s with
      | Some cn => VStr cn
      | None => p
      end
  | _ => p
  end.

(** A row of station_dataset.csv (the columns the script reads). *)
Record station : Type := {
  station_id : ident;
  longitude : value;
  latitude : value
}.

(** A row of ChinaCities_Swerts.csv. *)
Record city : Type := {
  Name_EN : value;
  Long : float;
  Lat : float;
  Province : value
}.

(** A row of [unique_stations] with the result columns. *)
Record row : Type := {
  src : station;
  province_code : value;
  province_name : value;
  prov_assign_method : pystr;
  nearest_city : value;
  distance_to_city_km : float
}.

(** [cities.dropna(subset=['Lat', 'Long'])]. *)
Definition dropna (cities : list city) : list city :=
  filter (fun c => is_nan (Lat c) = false /\ is_nan (Long c) = false) cities.

(** [stations.drop_duplicates(subset=['station_id'])]: the first row of each
    identifier is kept. *)
Fixpoint drop_duplicates_from (seen : gset ident) (l : list station)
  : list station :=
  match l with
  | [] => []
  | s :: l' =>
      if decide (station_id s ∈ seen) then drop_duplicates_from seen l'
      else s :: drop_duplicates_from ({[station_id s]} ∪ seen) l'
  end.

Definition drop_duplicates : list station -> list station :=
  drop_duplicates_from ∅.

(** The result columns as prepared before the loop. *)
Definition blank (s : station) : row :=
  {| src := s;
     province_code := VStr [];
     province_name := VStr [];
     prov_assign_method := [];
     nearest_city := VStr [];
     distance_to_city_km := nan |}.

(** The row after line 106. *)
Definition no_coords_row (s : station) : row :=
  let r := blank s in
  {| src := src r;
     province_code := province_code r;
     province_name := province_name r;
     prov_assign_method := py "no_coords";
     nearest_city := nearest_city r;
     distance_to_city_km := distance_to_city_km r |}.

(** The row after lines 119-123, for the nearest city [c] at distance [d]. *)
Definition assigned_row (s : station) (c : city) (d : float) : row :=
  let r := blank s in
  {| src := src r;
     province_code := Province c;
     province_name := province_cn (Province c);
     prov_assign_method := py "assigned_by_nearest_city";
     nearest_city := Name_EN c;
     distance_to_city_km := d |}.

(** The [try] block: both conversions, ValueError and TypeError caught. *)
Inductive coords : Type :=
| Coords (lon lat : float)
| NoCoords.

Definition read_coords `{PyLib} (s : station) : res coords :=
  match (let* lon := py_float (longitude s) in
         let* lat := py_float (latitude s) in
         Ok (Coords lon lat)) with
  | Ok c => Ok c
  | Raise ValueError | Raise TypeError => Ok NoCoords
  | Raise e => Raise e
  end.

(** The distances of one station to all cities. *)
Definition dists_of `{PyLib} (cities : list city) (lon lat : float)
  : list float :=
  haversine lon lat (map Long cities) (map Lat cities).

Record state : Type := {
  rows : list row;
  filled : nat;
  no_coords : nat
}.

(** Lines 110-116: the nearest city and its distance. *)
Definition nearest `{PyLib} (cities : list city)
    (station_lon station_lat : float) : res (city * float) :=
  let dists := dists_of cities station_lon station_lat in
  let* nearest_idx := np_argmin dists in
  match cities !! nearest_idx, dists !! nearest_idx with
  | Some c, Some nearest_dist => Ok (c, nearest_dist)
  | _, _ => Raise IndexError
  end.

(** The body of the loop over [unique_stations], lines 101-124. *)
Definition step `{PyLib} (cities : list city) (st : state) (s : station)
  : res state :=
  let* cs := read_coords s in
  match cs with
  | NoCoords =>
      Ok {| rows := rows st ++ [no_coords_row s];
            filled := filled st;
            no_coords := S (no_coords st) |}
  | Coords station_lon station_lat =>
      let* cd := nearest cities station_lon station_lat in
      Ok {| rows := rows st ++ [assigned_row s (fst cd) (snd cd)];
            filled := S (filled st);
            no_coords := no_coords st |}
  end.

(** [main]: the rows written to stations_with_province.csv and the two
    counters of the report. *)
Definition main `{PyLib} (stations : list station) (cities : list city)
  : res state :=
  let cities := dropna cities in
  let unique_stations := drop_duplicates stations in
  for_each (step cities) unique_stations
    {| rows := []; filled := 0; no_coords := 0 |}.

End AssignProvinces.

(** ** network/build network.py *)

Module BuildNetwork.

(** Whitespace for [str.strip] and for the regular expression class [\s]
    (Py_UNICODE_ISSPACE). *)
Definition is_space (c : N) : bool :=
  ((9 <=? c) && (c <=? 13) || (28 <=? c) && (c <=? 32) ||
   (c =? 133) || (c =? 160) || (c =? 5760) ||
   (8192 <=? c) && (c <=? 8202) || (c =? 8232) || (c =? 8233) ||
   (c =? 8239) || (c =? 8287) || (c =? 12288))%N.

Fixpoint lstrip (s : pystr) : pystr :=
  match s with
  | [] => []
  | c :: s' => if is_space c then lstrip s' else s
  end.

Definition rstrip (s : pystr) : pystr := rev (lstrip (rev s)).

(** [s.strip()]. *)
Definition strip (s : pystr) : pystr := rstrip (lstrip s).

(** [re.sub(r'\s+', ' ', s)]: every maximal run of whitespace becomes one
    space; [in_run] tells that the previous character was whitespace. *)
Fixpoint sub_spaces (in_run : bool) (s : pystr) : pystr :=
  match s with
  | [] => []
  | c :: s' =>
      if is_space c
      then if in_run then sub_spaces true s' else 32%N :: sub_spaces true s'
      else c :: sub_spaces false s'
  end.

(** The character class of the second pattern:
    ( ) [ ] \ / - . , U+3002 U+00B7 U+2022 and the double quote. *)
Definition punctuation : list N :=
  [40; 41; 91; 93; 92; 47; 92; 45; 46; 44; 12290; 44; 183; 183; 8226; 34]%N.

Definition is_punctuation (c : N) : bool := bool_decide (c ∈ punctuation).

(** [re.sub(r'[...]+', '', s)]: deleting every maximal run of class
    characters deletes exactly the class characters. *)
Definition sub_punctuation (s : pystr) : pystr :=
  List.filter (fun c => negb (is_punctuation c)) s.

Definition normalize_name `{PyLib} (name : value) : pystr :=
  if pd_isna name then []
  else
    let s := py_str name in
    let s := NFKC s in
    let s := strip s in
    let s := sub_spaces false s in
    let s := sub_punctuation s in
    str_lower s.

(** A row of stations.csv. *)
Record station : Type := {
  station_id : ident;
  station_name : value;
  province : value;
  latitude : value;
  longitude : value
}.

(** A row of tracks.csv; [edge_id] is [None] when the file has no such
    column. *)
Record track : Type := {
  start_station : value;
  end_station : value;
  length : value;
  year : value;
  type : value;
  edge_id : option value
}.

Record node_attrs : Type := {
  n_name : value;
  n_province : value;
  n_latitude : value;
  n_longitude : value
}.

(** The attributes of an edge; [e_year] is [None] for Python's [None]. *)
Record edge_attrs : Type := {
  e_length : value;
  e_year : option Z;
  e_year_raw : value;
  e_type : value;
  e_edge_id : value
}.

(** An edge of the MultiDiGraph, with the key that tells parallel edges
    apart. *)
Record edge : Type := {
  source : ident;
  target : ident;
  key : nat;
  attrs : edge_attrs
}.

(** [nx.MultiDiGraph]: the node dictionary (a node added by [add_edge] alone
    has no attributes) and the edges.  networkx keeps, for each ordered pair
    of nodes, a dictionary from key to attributes, and [G.edges] runs through
    the pairs grouped by source node.  [edges] lists the same edges as the
    [add_edge] calls made them: which edges the graph has, how many, and the
    order of the edges of one ordered pair (the order of their keys) are
    read from it; the position of an edge among those of other pairs is
    not an order of the graph, and no property depends on it. *)
Record graph : Type := {
  nodes : gmap ident (option node_attrs);
  edges : list edge
}.

Definition empty_graph : graph := {| nodes := ∅; edges := [] |}.

Definition add_node (G : graph) (n : ident) (a : node_attrs) : graph :=
  {| nodes := <[n := Some a]> (nodes G); edges := edges G |}.

Definition joins (u v : ident) (e : edge) : bool :=
  bool_decide (source e = u /\ target e = v).

(** [new_edge_key]: the number of edges already between [u] and [v]; edges
    are never removed, so this key is free. *)
Definition new_edge_key (G : graph) (u v : ident) : nat :=
  List.length (List.filter (joins u v) (edges G)).

Definition touch (n : ident) (m : gmap ident (option node_attrs))
  : gmap ident (option node_attrs) :=
  match m !! n with
  | Some _ => m
  | None => <[n := None]> m
  end.

Definition add_edge (G : graph) (u v : ident) (a : edge_attrs) : graph :=
  {| nodes := touch v (touch u (nodes G));
     edges := edges G ++
              [ {| source := u; target := v;
                   key := new_edge_key G u v; attrs := a |} ] |}.

(** The station mapping, lines 48-51. *)
Definition name_to_id `{PyLib} (stations : list station) : gmap pystr ident :=
  fold_left
    (fun m row => <[normalize_name (station_name row) := station_id row]> m)
    stations ∅.

(** Lines 58-63. *)
Definition add_nodes (stations : list station) (G : graph) : graph :=
  fold_left
    (fun G row =>
       add_node G (station_id row)
         {| n_name := station_name row;
            n_province := province row;
            n_latitude := latitude row;
            n_longitude := longitude row |})
    stations G.

Definition type_mapping : list (pystr * pystr) :=
  [ (py "rail_both", py "rail_both");
    (py "rail_good", py "rail_good");
    (py "rail pass", py "rail_pass");
    (py "road", py "road") ].

(** [tracks_df['type'].map(type_mapping).fillna(tracks_df['type'])] on one
    cell. *)
Definition type_standardized (t : value) : value :=
  match t with
  | VStr s =>
      match (list_to_map type_mapping : gmap pystr pystr) !! s with
      | Some t' => VStr t'
      | None => t
      end
  | _ => t
  end.

(** Lines 91-92: the year of a record, converted only when present. *)
Definition year_int `{PyLib} (row : track) : res (option Z) :=
  if pd_notna (year row)
  then let* y := py_int (year row) in Ok (Some y)
  else Ok None.

Definition edge_attrs_of `{PyLib} (row : track) : res edge_attrs :=
  let* y := year_int row in
  Ok {| e_length := length row;
        e_year := y;
        e_year_raw := year row;
        e_type := type_standardized (type row);
        e_edge_id := default VNone (edge_id row) |}.

Record state : Type := {
  G : graph;
  edges_added : nat;
  missing_stations : list value
}.

(** The body of the loop over tracks.csv, lines 80-105. *)
Definition add_track `{PyLib} (index : gmap pystr ident) (st : state)
    (row : track) : res state :=
  let start_name := start_station row in
  let end_name := end_station row in
  let start_normalized := normalize_name start_name in
  let end_normalized := normalize_name end_name in
  let start_id := index !! start_normalized in
  let end_id := index !! end_normalized in
  let skipped :=
    {| G := G st;
       edges_added := edges_added st;
       missing_stations :=
         missing_stations st
         ++ (if truthy_opt start_id then [] else [start_name])
         ++ (if truthy_opt end_id then [] else [end_name]) |} in
  match start_id, end_id with
  | Some u, Some v =>
      if truthy u && truthy v
      then
        let* a := edge_attrs_of row in
        Ok {| G := add_edge (G st) u v a;
              edges_added := S (edges_added st);
              missing_stations := missing_stations st |}
      else Ok skipped
  | _, _ => Ok skipped
  end.

(** Lines 47-105 of [main]: the index, the nodes and the edges. *)
Definition build_graph `{PyLib} (stations : list station)
    (tracks : list track) : res state :=
  let index := name_to_id stations in
  let G0 := add_nodes stations empty_graph in
  for_each (add_track index) tracks
    {| G := G0; edges_added := 0; missing_stations := [] |}.

(** How the [try] block of [main] ends: the graph is built and [main] goes on
    to draw the map, or an exception reached the handlers at the end of
    [main], which print it and return False. *)
Inductive run : Type :=
| Built (st : state)
| ReturnedFalse (e : exn).

Definition main `{PyLib} (stations : list station) (tracks : list track)
  : run :=
  match build_graph stations tracks with
  | Ok st => Built st
  | Raise e => ReturnedFalse e
  end.

(** The exceptions of the map preparation. *)
Inductive map_exn : Type :=
| AttributeError
| KeyError.

Inductive attempt (A : Type) : Type :=
| Done (a : A)
| Failed (e : map_exn).

Arguments Done {A} a.
Arguments Failed {A} e.

Fixpoint starts_with (sub s : pystr) : bool :=
  match sub, s with
  | [], _ => true
  | _ :: _, [] => false
  | a :: sub', b :: s' => (a =? b)%N && starts_with sub' s'
  end.

(** [s.find(sub) != -1]. *)
Fixpoint found (sub s : pystr) : bool :=
  starts_with sub s ||
  match s with
  | [] => false
  | _ :: s' => found sub s'
  end.

(** [edge_data.get('type', '').lower().find('rail') != -1]; a type that is
    not a string has no method [lower]. *)
Definition is_rail `{PyLib} (t : value) : attempt bool :=
  match t with
  | VStr s => Done (found (py "rail") (str_lower s))
  | _ => Failed AttributeError
  end.

(** [G.nodes[n]], then the test that both coordinates are present; a node
    without attributes has neither. *)
Definition located (G : graph) (n : ident) : attempt bool :=
  match nodes G !! n with
  | None => Failed KeyError
  | Some None => Done false
  | Some (Some a) => Done (pd_notna (n_latitude a) && pd_notna (n_longitude a))
  end.

(** The counters of the edge loop of the map preparation, lines 156-183:
    [rail_edges_total] and the length of [edges_for_map]. *)
Record rail_count : Type := {
  rail_edges_total : nat;
  edges_for_map : nat
}.

Definition count_rail_edge `{PyLib} (G : graph) (acc : rail_count) (e : edge)
  : attempt rail_count :=
  match is_rail (e_type (attrs e)) with
  | Failed x => Failed x
  | Done false => Done acc
  | Done true =>
      match located G (source e), located G (target e) with
      | Failed x, _ => Failed x
      | _, Failed x => Failed x
      | Done a, Done b =>
          Done {| rail_edges_total := S (rail_edges_total acc);
                  edges_for_map :=
                    if a && b then S (edges_for_map acc)
                    else edges_for_map acc |}
      end
  end.

Fixpoint count_rail_edges `{PyLib} (G : graph) (es : list edge)
    (acc : rail_count) : attempt rail_count :=
  match es with
  | [] => Done acc
  | e :: es' =>
      match count_rail_edge G acc e with
      | Done acc' => count_rail_edges G es' acc'
      | Failed x => Failed x
      end
  end.

(** The loop over [G.edges(keys=True, data=True)].  networkx yields the
    edges grouped by source node; the two counters do not depend on the
    order, and the edges are taken here in the order of insertion. *)
Definition rail_edges `{PyLib} (G : graph) : attempt rail_count :=
  count_rail_edges G (edges G) {| rail_edges_total := 0; edges_for_map := 0 |}.

End BuildNetwork.

(** ** analysis/build and plot the network.py *)

Module BuildAndPlot.

(** A row of the station table handed to [build_networkx_graph]; the
    optional columns read with [station.get] are [None] when absent. *)
Record station : Type := {
  station_id : ident;
  longitude : value;
  latitude : value;
  city_id : value;
  city_name_chn : value;
  city_name_eng : value;
  province_code : value;
  province_name : value
}.

(** A row of the edge table. *)
Record edge_row : Type := {
  source_station : ident;
  target_station : ident;
  edge_id : value;
  seg_id : value;
  length_km : value
}.

Record edge_attrs : Type := {
  a_edge_id : value;
  a_seg_id : value;
  a_length_km : value
}.

Record edge : Type := {
  source : ident;
  target : ident;
  attrs : edge_attrs
}.

(** [nx.Graph]: simple and undirected.  [nodes] is the node dictionary (a
    node added by [add_edge] alone has no attributes); [edges] holds at most
    one entry for each unordered pair of nodes. *)
Record graph : Type := {
  nodes : gmap ident (option station);
  edges : list edge
}.

Definition empty_graph : graph := {| nodes := ∅; edges := [] |}.

Definition add_node (G : graph) (s : station) : graph :=
  {| nodes := <[station_id s := Some s]> (nodes G); edges := edges G |}.

Definition joins (u v : ident) (e : edge) : bool :=
  bool_decide ((source e = u /\ target e = v) \/
               (source e = v /\ target e = u)).

(** The edge dictionary of an undirected simple graph: a second [add_edge]
    on the same pair updates the attributes of the edge already there. *)
Fixpoint put_edge (u v : ident) (a : edge_attrs) (es : list edge)
  : list edge :=
  match es with
  | [] => [ {| source := u; target := v; attrs := a |} ]
  | e :: es' =>
      if joins u v e
      then {| source := source e; target := target e; attrs := a |} :: es'
      else e :: put_edge u v a es'
  end.

Definition touch (n : ident) (m : gmap ident (option station))
  : gmap ident (option station) :=
  match m !! n with
  | Some _ => m
  | None => <[n := None]> m
  end.

Definition add_edge (G : graph) (u v : ident) (a : edge_attrs) : graph :=
  {| nodes := touch v (touch u (nodes G));
     edges := put_edge u v a (edges G) |}.

(** The body of the edge loop, lines 55-67. *)
Definition add_edge_row (G : graph) (row : edge_row) : graph :=
  let source := source_station row in
  let target := target_station row in
  if bool_decide (source ∈ dom (nodes G)) && bool_decide (target ∈ dom (nodes G))
  then add_edge G source target
         {| a_edge_id := edge_id row;
            a_seg_id := seg_id row;
            a_length_km := length_km row |}
  else G.

Definition number_of_nodes (G : graph) : nat := size (nodes G).
Definition number_of_edges (G : graph) : nat := List.length (edges G).

(** [build_networkx_graph]: the graph returned, and the two counts of the
    line it prints. *)
Definition build_networkx_graph (stations : list station)
    (edge_rows : list edge_row) : graph :=
  let G := fold_left add_node stations empty_graph in
  fold_left add_edge_row edge_rows G.

Definition build_log (G : graph) : nat * nat :=
  (number_of_nodes G, number_of_edges G).

(** [nx.number_connected_components]: the classes of the partition of the
    nodes obtained by merging, for every edge, the classes of its two ends. *)
Definition merge_classes (cls : list (gset ident)) (e : edge)
  : list (gset ident) :=
  let hit := fun c : gset ident => bool_decide (source e ∈ c \/ target e ∈ c) in
  (({[source e]} ∪ {[target e]}) ∪ ⋃ (List.filter hit cls))
  :: List.filter (fun c => negb (hit c)) cls.

Definition connected_components (G : graph) : list (gset ident) :=
  fold_left merge_classes (edges G)
    (map (fun n => {[n]}) (elements (dom (nodes G)))).

Definition number_connected_components (G : graph) : nat :=
  List.length (connected_components G).

(** [a / b] on Python integers. *)
Definition py_truediv (a b : Z) : res float :=
  if b =? 0 then Raise ZeroDivisionError
  else Ok (float_of_Z a / float_of_Z b)%float.

(** [nx.density] on an undirected graph. *)
Definition density (G : graph) : res value :=
  let n := Z.of_nat (number_of_nodes G) in
  let m := Z.of_nat (number_of_edges G) in
  if (m =? 0) || (n <=? 1) then Ok (VInt 0)
  else
    let* d := py_truediv m (n * (n - 1)) in
    Ok (VFloat (d * 2)%float).

(** The graph entries of the [stats] dictionary, lines 276-284. *)
Record stats : Type := {
  s_nodes : nat;
  s_edges : nat;
  s_connected_components : nat;
  s_density : value
}.

Definition network_stats (G : graph) : res stats :=
  let* d := density G in
  Ok {| s_nodes := number_of_nodes G;
        s_edges := number_of_edges G;
        s_connected_components := number_connected_components G;
        s_density := d |}.

(** [load_and_process_data], lines 11-33.  A row of station_dataset.csv or
    edge_dataset.csv is paired with its [year] cell, an integer or [None]
    for a missing cell (NaN). *)
Definition max_year (acc : option Z) (cell : option Z) : option Z :=
  match acc, cell with
  | Some a, Some b => Some (Z.max a b)
  | None, _ => cell
  | _, None => acc
  end.

(** [stations['year'].max()]: missing cells are skipped, and the maximum of
    no value is NaN. *)
Definition latest_year {A : Type} (table : list (option Z * A)) : option Z :=
  fold_left max_year (fst <$> table) None.

(** [table['year'] == year]: NaN equals nothing. *)
Definition in_year {A : Type} (year : option Z) (r : option Z * A) : bool :=
  match year, fst r with
  | Some y, Some c => (c =? y)%Z
  | _, _ => false
  end.

Definition load_and_process_data
    (stations : list (option Z * station))
    (edge_rows : list (option Z * edge_row)) (year : option Z)
  : list (option Z * station) * list (option Z * edge_row) * option Z :=
  let year :=
    match year with
    | None => latest_year stations
    | Some y => Some y
    end in
  (List.filter (in_year year) stations,
   List.filter (in_year year) edge_rows,
   year).

(** What [pd.to_numeric] makes of a string, [None] when it cannot parse
    it. *)
Class PandasLib : Type := {
  numeric_of_str : pystr -> option float
}.

(** [pd.to_numeric(..., errors='coerce')] on one cell. *)
Definition to_numeric `{PandasLib} (v : value) : value :=
  match v with
  | VNone => VFloat nan
  | VInt z => VInt z
  | VFloat f => VFloat f
  | VStr s =>
      match numeric_of_str s with
      | Some f => VFloat f
      | None => VFloat nan
      end
  end.

(** Lines 77-82 of [build_map_by_province]: the coordinates made numeric,
    and the rows that have both. *)
Definition with_numeric_coords `{PandasLib} (s : station) : station :=
  {| station_id := station_id s;
     longitude := to_numeric (longitude s);
     latitude := to_numeric (latitude s);
     city_id := city_id s;
     city_name_chn := city_name_chn s;
     city_name_eng := city_name_eng s;
     province_code := province_code s;
     province_name := province_name s |}.

Definition valid_coords `{PandasLib} (stations : list station) : list station :=
  List.filter (fun s => pd_notna (latitude s) && pd_notna (longitude s))
    (with_numeric_coords <$> stations).

(** Lines 92-94: [station_coords], from identifier to [lat, lon]. *)
Definition station_coords (valid : list station) : gmap ident (value * value) :=
  fold_left
    (fun m row => <[station_id row := (latitude row, longitude row)]> m)
    valid ∅.

(** Lines 160-182: the locations of the lines drawn, one for each edge row
    whose two stations have coordinates; [edges_added] is their number. *)
Definition railway_line (coords : gmap ident (value * value)) (row : edge_row)
  : list ((value * value) * (value * value)) :=
  match coords !! source_station row, coords !! target_station row with
  | Some source_coord, Some target_coord => [(source_coord, target_coord)]
  | _, _ => []
  end.

Definition railway_lines `{PandasLib} (stations : list station)
    (edge_rows : list edge_row) : list ((value * value) * (value * value)) :=
  flat_map (railway_line (station_coords (valid_coords stations))) edge_rows.

End BuildAndPlot.

(** ** A library instance for running the model on examples

    The theorems below hold for every [PyLib]; the examples and the concrete
    runs use this one.  It agrees with Python on Basic Latin text and on
    decimal numerals; the trigonometric functions are truncated Maclaurin
    series, close to NumPy's for the small angles of the examples. *)

Module ExampleLib.

Definition nfkc_cp (c : N) : N :=
  (if (65281 <=? c) && (c <=? 65374) then c - 65248
   else if (c =? 12288) || (c =? 160) then 32
   else c)%N.

Definition lower_cp (c : N) : N :=
  (if (65 <=? c) && (c <=? 90) then c + 32 else c)%N.

Fixpoint digits_value (acc : Z) (s : pystr) : option Z :=
  match s with
  | [] => Some acc
  | c :: s' =>
      if ((48 <=? c) && (c <=? 57))%N
      then digits_value (10 * acc + (Z.of_N c - 48)) s'
      else None
  end.

Definition unsigned_int (s : pystr) : option Z :=
  match s with
  | [] => None
  | _ :: _ => digits_value 0 s
  end.

Definition signed {A : Type} (parse : pystr -> option A) (neg : A -> A)
    (s : pystr) : option A :=
  match BuildNetwork.strip s with
  | 45%N :: d => neg <$> parse d
  | 43%N :: d => parse d
  | d => parse d
  end.

Definition parse_int : pystr -> option Z := signed unsigned_int Z.opp.

Fixpoint before_dot (s : pystr) : pystr :=
  match s with
  | [] => []
  | c :: s' => if (c =? 46)%N then [] else c :: before_dot s'
  end.

Fixpoint after_dot (s : pystr) : pystr :=
  match s with
  | [] => []
  | c :: s' => if (c =? 46)%N then s' else after_dot s'
  end.

(** Digits, then optionally a dot and more digits. *)
Definition unsigned_float (s : pystr) : option float :=
  let int_part := before_dot s in
  let frac_part := after_dot s in
  match unsigned_int (int_part ++ frac_part) with
  | Some m =>
      Some (float_of_Z m / float_of_Z (10 ^ Z.of_nat (List.length frac_part)))%float
  | None => None
  end.

Definition parse_float : pystr -> option float :=
  signed unsigned_float PrimFloat.opp.

(** Integral floats print as Python prints them; the examples convert no
    other float to a string. *)
Definition print_float (f : float) : pystr :=
  if is_nan f then py "nan"
  else if is_infinity f then (if (f <? 0)%float then py "-inf" else py "inf")
  else int_str (trunc_float f) ++ py ".0".

Local Open Scope float_scope.

(** As in NumPy, the sine and the cosine of an infinite angle are NaN. *)
Definition sin7 (x : float) : float :=
  let x2 := x * x in
  if is_infinity x then nan
  else x * (1 - x2 / 6 * (1 - x2 / 20 * (1 - x2 / 42))).

Definition cos6 (x : float) : float :=
  let x2 := x * x in
  if is_infinity x then nan
  else 1 - x2 / 2 * (1 - x2 / 12 * (1 - x2 / 30)).

Definition arcsin7 (x : float) : float :=
  let x2 := x * x in
  x * (1 + x2 * (1 / 6 + x2 * (3 / 40 + x2 * (15 / 336)))).

Definition lib : PyLib := {|
  NFKC := map nfkc_cp;
  str_lower := map lower_cp;
  float_str := print_float;
  float_of_str := parse_float;
  int_of_str := parse_int;
  np_sin := sin7;
  np_cos := cos6;
  np_arcsin := arcsin7
|}.

(** [pd.to_numeric] on decimal numerals. *)
Definition pandas : BuildAndPlot.PandasLib :=
  {| BuildAndPlot.numeric_of_str := parse_float |}.

End ExampleLib.

(** ** Vocabulary of the properties *)

Section GeoVocabulary.

Import AssignProvinces.
Local Open Scope nat_scope.
Context `{PyLib}.

(** [m], found at index [r] of [l], is a minimum of [l] and strictly below
    every element before it. *)
Definition first_minimum (l : list float) (r : nat) (m : float) : Prop :=
  l !! r = Some m /\
  (forall j x, l !! j = Some x -> (m <=? x)%float = true) /\
  (forall j x, l !! j = Some x -> j < r -> (m <? x)%float = true).

(** [m], found at index [r] of [l], is beaten by no element of [l] and
    equalled by none before it.  The comparisons are the negated ones, which
    also hold when a NaN is involved. *)
Definition first_unbeaten (l : list float) (r : nat) (m : float) : Prop :=
  l !! r = Some m /\
  (forall j x, l !! j = Some x -> (x <? m)%float = false) /\
  (forall j x, l !! j = Some x -> j < r -> (x <=? m)%float = false).

Definition no_nan (l : list float) : Prop :=
  forall x, x ∈ l -> is_nan x = false.

(** The distance in kilometres from the point [(lon, lat)] to a city. *)
Definition distance_to (lon lat : float) (c : city) : float :=
  haversine_km lon lat (Long c) (Lat c).

(** The great-circle distance as the specification words it: a spherical
    earth of radius 6371.0 km, the angles in radians, and the half-angle
    form  R * 2 * arcsin (sqrt (sin^2 (dlat / 2)
                               + cos lat1 * cos lat2 * sin^2 (dlon / 2))). *)
Definition radians (degrees : float) : float :=
  (degrees * (0x1.921fb54442d18p+1 / 180))%float.

Definition sin2_half (angle : float) : float :=
  (np_sin (angle / 2) * np_sin (angle / 2))%float.

Definition great_circle_km (lon1 lat1 lon2 lat2 : float) : float :=
  (6371 * (2 * np_arcsin
             (sqrt (sin2_half (radians lat2 - radians lat1)
                    + np_cos (radians lat1) * np_cos (radians lat2)
                      * sin2_half (radians lon2 - radians lon1)))))%float.

(** The loop state after station [s] has been given city [c]. *)
Definition assigned (st : state) (s : station) (c : city) (d : float) : state :=
  {| rows := rows st ++ [assigned_row s c d];
     filled := S (filled st);
     no_coords := no_coords st |}.

(** The loop state after station [s] has been counted as without
    coordinates. *)
Definition unassigned (st : state) (s : station) : state :=
  {| rows := rows st ++ [no_coords_row s];
     filled := filled st;
     no_coords := S (no_coords st) |}.

End GeoVocabulary.

Section NetworkVocabulary.

Import BuildNetwork.
Context `{PyLib}.

(** The canonical key of a station row. *)
Definition key_of (row : station) : pystr := normalize_name (station_name row).

Definition index_step (m : gmap pystr ident) (row : station)
  : gmap pystr ident :=
  <[key_of row := station_id row]> m.

(** The two lookups of the loop body. *)
Definition start_id (index : gmap pystr ident) (row : track) : option ident :=
  index !! normalize_name (start_station row).

Definition end_id (index : gmap pystr ident) (row : track) : option ident :=
  index !! normalize_name (end_station row).

(** What the loop body leaves when it skips a record. *)
Definition skipped (index : gmap pystr ident) (st : state) (row : track)
  : state :=
  {| G := G st;
     edges_added := edges_added st;
     missing_stations :=
       missing_stations st
       ++ (if truthy_opt (start_id index row) then [] else [start_station row])
       ++ (if truthy_opt (end_id index row) then [] else [end_station row]) |}.

(** The index without its falsy identifiers. *)
Definition truthy_entries (index : gmap pystr ident) : gmap pystr ident :=
  filter (fun kv => truthy kv.2 = true) index.

End NetworkVocabulary.

Section SimpleGraphVocabulary.

Import BuildAndPlot.

(** The identifiers of a station table. *)
Definition station_ids (stations : list station) : gset ident :=
  list_to_set (station_id <$> stations).

(** Both ends of every edge are nodes. *)
Definition closed (G : graph) : Prop :=
  forall e, e ∈ edges G -> source e ∈ dom (nodes G) /\ target e ∈ dom (nodes G).

End SimpleGraphVocabulary.

(** ** Vocabulary of the further properties *)

Section AssignmentVocabulary.

Import AssignProvinces.
Context `{PyLib}.

(** The two values of the column [prov_assign_method] that the loop writes. *)
Definition was_assigned (r : row) : Prop :=
  prov_assign_method r = py "assigned_by_nearest_city".

Definition was_skipped (r : row) : Prop :=
  prov_assign_method r = py "no_coords".

(** A row as the loop leaves it: blank but for 'no_coords', or filled from
    one of [cities] at the distance computed from the station's converted
    coordinates. *)
Definition row_from (cities : list city) (r : row) : Prop :=
  r = no_coords_row (src r) \/
  exists c lon lat,
    c ∈ cities /\
    py_float (longitude (src r)) = Ok lon /\
    py_float (latitude (src r)) = Ok lat /\
    r = assigned_row (src r) c (distance_to lon lat c).

End AssignmentVocabulary.

Section NetworkRunVocabulary.

Import BuildNetwork.
Context `{PyLib}.

(** The attributes [add_nodes] gives the node of a station row. *)
Definition node_attrs_of (row : station) : node_attrs :=
  {| n_name := station_name row;
     n_province := province row;
     n_latitude := latitude row;
     n_longitude := longitude row |}.

(** The identifiers of a station table. *)
Definition ids_of (stations : list station) : gset ident :=
  list_to_set (station_id <$> stations).

(** Both labels of a record resolve to truthy identifiers. *)
Definition resolvable (index : gmap pystr ident) (row : track) : bool :=
  truthy_opt (start_id index row) && truthy_opt (end_id index row).

(** The edge [e] is the one the loop adds for the record [row]. *)
Definition edge_of_record (index : gmap pystr ident) (e : edge) (row : track)
  : Prop :=
  start_id index row = Some (source e) /\
  end_id index row = Some (target e) /\
  edge_attrs_of row = Ok (attrs e).

(** The labels a record adds to [missing_stations]. *)
Definition unresolved_labels (index : gmap pystr ident) (row : track)
  : list value :=
  if resolvable index row then []
  else (if truthy_opt (start_id index row) then [] else [start_station row])
       ++ (if truthy_opt (end_id index row) then [] else [end_station row]).

(** [G[u][v]]: the parallel edges from [u] to [v], in the order of their
    keys. *)
Definition edges_between (g : graph) (u v : ident) : list edge :=
  List.filter (joins u v) (edges g).

(** The records of the track table, in its order, for which the loop adds
    an edge from [u] to [v]: the start label resolves to [u], the end label
    to [v], and both identifiers are truthy. *)
Definition records_between (index : gmap pystr ident) (u v : ident)
    (tracks : list track) : list track :=
  List.filter
    (fun row => resolvable index row
                && bool_decide (start_id index row = Some u /\
                                end_id index row = Some v))
    tracks.

(** The edge [e] carries what the loop reads from the record [row]: the
    length cell, the year cell as it is and as an integer ([None] when the
    cell is missing), the standardized type and the edge identifier. *)
Definition carries (e : edge) (row : track) : Prop :=
  e_length (attrs e) = length row /\
  e_year_raw (attrs e) = year row /\
  ((pd_isna (year row) = true /\ e_year (attrs e) = None) \/
   (pd_isna (year row) = false /\
    exists y, e_year (attrs e) = Some y /\ py_int (year row) = Ok y)) /\
  e_type (attrs e) = type_standardized (type row) /\
  e_edge_id (attrs e) = default VNone (edge_id row).

(** The key of every edge is the number of edges before it with the same
    source and target. *)
Definition keys_count_parallel_edges (es : list edge) : Prop :=
  forall i e, es !! i = Some e ->
    key e = List.length (List.filter (joins (source e) (target e)) (take i es)).

End NetworkRunVocabulary.

Section SimpleGraphRunVocabulary.

Import BuildAndPlot.

(** The attributes [build_networkx_graph] gives the edge of a row. *)
Definition attrs_of_row (row : edge_row) : edge_attrs :=
  {| a_edge_id := edge_id row;
     a_seg_id := seg_id row;
     a_length_km := length_km row |}.

(** The row names the unordered pair of [u] and [v]. *)
Definition on_pair (u v : ident) (row : edge_row) : bool :=
  bool_decide ((source_station row = u /\ target_station row = v) \/
               (source_station row = v /\ target_station row = u)).

(** No two edges of the list join the same unordered pair. *)
Fixpoint simple (es : list edge) : Prop :=
  match es with
  | [] => True
  | e :: es' =>
      (forall e', e' ∈ es' -> joins (source e) (target e) e' = false) /\
      simple es'
  end.

(** Some row of the station table gives the identifier [i] a latitude and
    a longitude that are numbers. *)
Definition has_coords `{PandasLib} (stations : list station) (i : ident)
  : Prop :=
  exists s, s ∈ stations /\ station_id s = i /\
            pd_notna (to_numeric (latitude s)) = true /\
            pd_notna (to_numeric (longitude s)) = true.

End SimpleGraphRunVocabulary.

(** ** Example data *)

(** The second end-to-end scenario of the specification: a station at
    (1, 1) between CityX at (0, 0) and CityY at (10, 10). *)
Definition CityX : AssignProvinces.city :=
  {| AssignProvinces.Name_EN := VStr (py "CityX");
     AssignProvinces.Long := 0; AssignProvinces.Lat := 0;
     AssignProvinces.Province := VStr (py "ProvA") |}.

Definition CityY : AssignProvinces.city :=
  {| AssignProvinces.Name_EN := VStr (py "CityY");
     AssignProvinces.Long := 10; AssignProvinces.Lat := 10;
     AssignProvinces.Province := VStr (py "ProvB") |}.

Definition station_1_1 : AssignProvinces.station :=
  {| AssignProvinces.station_id := IdStr (py "Q");
     AssignProvinces.longitude := VFloat 1;
     AssignProvinces.latitude := VFloat 1 |}.

(** The loop state before the first station. *)
Definition start : AssignProvinces.state :=
  {| AssignProvinces.rows := []; AssignProvinces.filled := 0;
     AssignProvinces.no_coords := 0 |}.

Section NetworkData.

Import BuildNetwork.

Definition mk_station (id : ident) (name : value) : station :=
  {| station_id := id; station_name := name; province := VStr (py "P");
     latitude := VFloat 30; longitude := VFloat 110 |}.

Definition mk_track (a b len yr ty : value) : track :=
  {| start_station := a; end_station := b; length := len; year := yr;
     type := ty; edge_id := None |}.

Definition S1 : ident := IdStr (py "S1").
Definition S2 : ident := IdStr (py "S2").

(** The first end-to-end scenario of the specification. *)
Definition Alpha : station := mk_station S1 (VStr (py "Alpha")).
Definition Beta : station := mk_station S2 (VStr (py "Beta")).

Definition track_1990 : track :=
  mk_track (VStr (py "Alpha")) (VStr (py "Beta")) (VFloat 10)
    (VInt 1990) (VStr (py "rail_good")).

Definition track_2005 : track :=
  mk_track (VStr (py "Alpha")) (VStr (py "Beta")) (VFloat 12.5)
    (VInt 2005) (VStr (py "rail pass")).

(** A year column with a cell that is not a number: pandas then keeps every
    cell of the column as a string. *)
Definition track_year_1990 : track :=
  mk_track (VStr (py "Alpha")) (VStr (py "Beta")) (VFloat 10)
    (VStr (py "1990")) (VStr (py "rail_good")).

Definition track_bad_year : track :=
  mk_track (VStr (py "Alpha")) (VStr (py "Beta")) (VFloat 10)
    (VStr (py "abc")) (VStr (py "rail_good")).

(** A station table with integer identifiers that start at 0. *)
Definition Zero : station := mk_station (IdInt 0) (VStr (py "Alpha")).
Definition One : station := mk_station (IdInt 1) (VStr (py "Beta")).

(** A station without a name, one named by punctuation alone, and a record
    whose endpoint labels are punctuation alone. *)
Definition Nameless : station := mk_station S1 (VFloat nan).
Definition Dots : station := mk_station S2 (VStr (py "...")).

Definition track_dashes : track :=
  mk_track (VStr (py "--")) (VStr (py "()")) (VFloat 10)
    (VFloat nan) (VStr (py "rail_good")).

(** Two stations whose names differ in case, spacing and punctuation. *)
Definition Beijing1 : station := mk_station S1 (VStr (py "Beijing  Rail.")).
Definition Beijing2 : station := mk_station S2 (VStr (py "beijing rail")).

End NetworkData.

Section SimpleGraphData.

Import BuildAndPlot.

Definition plain_station (id : ident) : station :=
  {| station_id := id; longitude := VFloat 110; latitude := VFloat 30;
     city_id := VNone; city_name_chn := VNone; city_name_eng := VNone;
     province_code := VStr []; province_name := VStr [] |}.

Definition A : ident := IdStr (py "A").
Definition B : ident := IdStr (py "B").
Definition C : ident := IdStr (py "C").

Definition segment (u v : ident) (n : Z) (len : float) : edge_row :=
  {| source_station := u; target_station := v;
     edge_id := VInt n; seg_id := VInt n; length_km := VFloat len |}.

End SimpleGraphData.

(** A station whose longitude cell is empty, and one whose longitude is
    not a numeral. *)
Definition station_nan : AssignProvinces.station :=
  {| AssignProvinces.station_id := IdStr (py "N");
     AssignProvinces.longitude := VFloat nan;
     AssignProvinces.latitude := VFloat 1 |}.

Definition station_text : AssignProvinces.station :=
  {| AssignProvinces.station_id := IdStr (py "T");
     AssignProvinces.longitude := VStr (py "east");
     AssignProvinces.latitude := VFloat 1 |}.

(** A city whose latitude cell reads 'inf': the cell is not missing, so
    [dropna] keeps the city. *)
Definition CityBeyond : AssignProvinces.city :=
  {| AssignProvinces.Name_EN := VStr (py "CityBeyond");
     AssignProvinces.Long := 0; AssignProvinces.Lat := infinity;
     AssignProvinces.Province := VStr (py "ProvD") |}.

(** A city whose latitude is missing. *)
Definition CityLost : AssignProvinces.city :=
  {| AssignProvinces.Name_EN := VStr (py "CityLost");
     AssignProvinces.Long := 1; AssignProvinces.Lat := nan;
     AssignProvinces.Province := VStr (py "ProvC") |}.

Section MoreNetworkData.

Import BuildNetwork.

(** A record to a station that is not in the table, and one whose type cell
    is empty. *)
Definition track_unknown : track :=
  mk_track (VStr (py "Alpha")) (VStr (py "Gamma")) (VFloat 7)
    (VFloat nan) (VStr (py "road")).


(** A record from Beta back to Alpha, without a year. *)
Definition track_return : track :=
  mk_track (VStr (py "Beta")) (VStr (py "Alpha")) (VFloat 11)
    (VFloat nan) (VStr (py "rail_good")).

(** The graph of Alpha and Beta with the records of 1990 and 2005. *)
Definition graph_1990_2005 : graph :=
  match @build_graph ExampleLib.lib [Alpha; Beta] [track_1990; track_2005] with
  | Ok st => G st
  | Raise _ => empty_graph
  end.

End MoreNetworkData.

Section MoreSimpleGraphData.

Import BuildAndPlot.

(** A station whose latitude is not a numeral. *)
Definition unlocated_station (id : ident) : station :=
  {| station_id := id; longitude := VFloat 110; latitude := VStr (py "north");
     city_id := VNone; city_name_chn := VNone; city_name_eng := VNone;
     province_code := VStr []; province_name := VStr [] |}.

End MoreSimpleGraphData.

(** * Properties *)

(** ** The order of binary64 floats *)

Section FloatOrder.

Local Open Scope float_scope.

Ltac sf_cases :=
  repeat match goal with
         | s : bool |- _ => destruct s
         end;
  simpl; try discriminate; try reflexivity;
  repeat match goal with
         | |- context [Pos.compare_cont Eq ?m ?n] =>
             change (Pos.compare_cont Eq m n) with (m ?= n)%positive
         | H : context [Pos.compare_cont Eq ?m ?n] |- _ =>
             change (Pos.compare_cont Eq m n) with (m ?= n)%positive in H
         end;
  repeat match goal with
         | |- context [(?x ?= ?y)%Z] => destruct (Z.compare_spec x y)
         | H : context [(?x ?= ?y)%Z] |- _ => destruct (Z.compare_spec x y)
         | |- context [(?x ?= ?y)%positive] => destruct (Pos.compare_spec x y)
         | H : context [(?x ?= ?y)%positive] |- _ =>
             destruct (Pos.compare_spec x y)
         end;
  simpl in *; subst; try discriminate; try reflexivity; try lia.

Lemma SFleb_false_ltb (a b : spec_float) :
  SFeqb a a = true -> SFeqb b b = true ->
  SFleb a b = false -> SFltb b a = true.
Proof.
  unfold SFeqb, SFleb, SFltb.
  destruct a, b; simpl; try discriminate; try reflexivity; sf_cases.
Qed.

Lemma SFltb_leb_trans (a b c : spec_float) :
  SFltb a b = true -> SFleb b c = true -> SFltb a c = true.
Proof.
  unfold SFleb, SFltb.
  destruct a, b, c; simpl; try discriminate; try reflexivity; sf_cases.
Qed.

Lemma SFleb_ltb_false (a b : spec_float) :
  SFleb a b = true -> SFltb b a = false.
Proof.
  unfold SFleb, SFltb.
  destruct a, b; simpl; try discriminate; try reflexivity; sf_cases.
Qed.

Lemma SFltb_leb_false (a b : spec_float) :
  SFltb a b = true -> SFleb b a = false.
Proof.
  unfold SFleb, SFltb.
  destruct a, b; simpl; try discriminate; try reflexivity; sf_cases.
Qed.

Lemma SFeqb_false_nan (a : spec_float) : SFeqb a a = false -> a = S754_nan.
Proof.
  unfold SFeqb.
  destruct a; simpl; try discriminate; try reflexivity; sf_cases.
Qed.

Lemma SFleb_eqb_r (a b : spec_float) : SFleb a b = true -> SFeqb b b = true.
Proof.
  unfold SFleb, SFeqb.
  destruct a, b; simpl; try discriminate; try reflexivity; sf_cases.
Qed.

Lemma SFltb_leb (a b : spec_float) : SFltb a b = true -> SFleb a b = true.
Proof.
  unfold SFleb, SFltb. destruct (SFcompare a b) as [[]|]; congruence.
Qed.

Lemma SFleb_refl (a : spec_float) : SFeqb a a = true -> SFleb a a = true.
Proof.
  unfold SFeqb, SFleb. destruct (SFcompare a a) as [[]|]; congruence.
Qed.

Lemma not_nan_eqb (x : float) :
  is_nan x = false -> SFeqb (Prim2SF x) (Prim2SF x) = true.
Proof.
  unfold is_nan. rewrite FloatAxioms.eqb_spec.
  destruct (SFeqb _ _); [reflexivity | discriminate].
Qed.

Lemma leb_false_ltb (x y : float) :
  is_nan x = false -> is_nan y = false ->
  (x <=? y) = false -> (y <? x) = true.
Proof.
  intros Hx Hy. rewrite FloatAxioms.leb_spec, FloatAxioms.ltb_spec.
  apply SFleb_false_ltb; apply not_nan_eqb; assumption.
Qed.

Lemma ltb_leb_trans (x y z : float) :
  (x <? y) = true -> (y <=? z) = true -> (x <? z) = true.
Proof.
  rewrite !FloatAxioms.ltb_spec, FloatAxioms.leb_spec.
  apply SFltb_leb_trans.
Qed.

Lemma ltb_leb (x y : float) : (x <? y) = true -> (x <=? y) = true.
Proof.
  rewrite FloatAxioms.ltb_spec, FloatAxioms.leb_spec. apply SFltb_leb.
Qed.

Lemma leb_refl (x : float) : is_nan x = false -> (x <=? x) = true.
Proof.
  intros Hx. rewrite FloatAxioms.leb_spec.
  apply SFleb_refl, not_nan_eqb, Hx.
Qed.

Lemma leb_ltb_false (x y : float) : (x <=? y) = true -> (y <? x) = false.
Proof.
  rewrite FloatAxioms.ltb_spec, FloatAxioms.leb_spec. apply SFleb_ltb_false.
Qed.

Lemma ltb_leb_false (x y : float) : (x <? y) = true -> (y <=? x) = false.
Proof.
  rewrite FloatAxioms.ltb_spec, FloatAxioms.leb_spec. apply SFltb_leb_false.
Qed.

Lemma leb_not_nan_r (x y : float) : (x <=? y) = true -> is_nan y = false.
Proof.
  unfold is_nan. rewrite FloatAxioms.leb_spec, FloatAxioms.eqb_spec.
  intros Hle. now rewrite (SFleb_eqb_r _ _ Hle).
Qed.

Lemma nan_unordered (x y : float) :
  is_nan x = true -> (y <? x) = false /\ (y <=? x) = false.
Proof.
  unfold is_nan.
  rewrite FloatAxioms.eqb_spec, FloatAxioms.ltb_spec, FloatAxioms.leb_spec.
  intros Hx. apply negb_true_iff, SFeqb_false_nan in Hx. rewrite Hx.
  unfold SFltb, SFleb. destruct (Prim2SF y); split; reflexivity.
Qed.

End FloatOrder.

(** ** Nearest-city assignment *)

Section NearestCity.

Import AssignProvinces.
Local Open Scope float_scope.
Local Open Scope nat_scope.

Context `{PyLib}.

Lemma first_minimum_unbeaten (l : list float) (r : nat) (m : float) :
  first_minimum l r m -> first_unbeaten l r m.
Proof.
  intros (Hr & Hle & Hlt). repeat split; [exact Hr | |].
  - intros j x Hj. apply leb_ltb_false. eapply Hle, Hj.
  - intros j x Hj Hjr. apply ltb_leb_false. eapply Hlt; eassumption.
Qed.

(** The running minimum stays when the next element is not below it. *)
Lemma first_minimum_keep (pre : list float) (mi : nat) (mp x : float) :
  first_minimum pre mi mp -> (mp <=? x)%float = true ->
  first_minimum (pre ++ [x]) mi mp.
Proof.
  intros (Hmi & Hle & Hlt) Hcmp.
  assert (Hmi_lt : mi < List.length pre) by (eapply lookup_lt_Some, Hmi).
  repeat split.
  - rewrite lookup_app_l by assumption. exact Hmi.
  - intros j y Hj. apply lookup_app_Some in Hj as [Hj | [_ Hj]].
    + eapply Hle; eassumption.
    + apply list_lookup_singleton_Some in Hj as [_ <-]. exact Hcmp.
  - intros j y Hj Hjlt. apply lookup_app_Some in Hj as [Hj | [Hge _]].
    + eapply Hlt; eassumption.
    + lia.
Qed.

(** The next element becomes the running minimum when it is below it. *)
Lemma first_minimum_replace (pre : list float) (mi : nat) (mp x : float) :
  first_minimum pre mi mp ->
  is_nan mp = false -> is_nan x = false -> (mp <=? x)%float = false ->
  first_minimum (pre ++ [x]) (List.length pre) x.
Proof.
  intros (Hmi & Hle & Hlt) Hmp Hx Hcmp.
  pose proof (leb_false_ltb mp x Hmp Hx Hcmp) as Hxmp.
  repeat split.
  - rewrite lookup_app_r by lia.
    replace (List.length pre - List.length pre) with 0 by lia. reflexivity.
  - intros j y Hj. apply lookup_app_Some in Hj as [Hj | [_ Hj]].
    + apply ltb_leb. eapply ltb_leb_trans; [exact Hxmp|].
      eapply Hle; eassumption.
    + apply list_lookup_singleton_Some in Hj as [_ <-]. apply leb_refl, Hx.
  - intros j y Hj Hjlt. apply lookup_app_Some in Hj as [Hj | [Hge Hj]].
    + eapply ltb_leb_trans; [exact Hxmp|]. eapply Hle; eassumption.
    + lia.
Qed.

Lemma no_nan_snoc (pre : list float) (x : float) :
  no_nan pre -> is_nan x = false -> no_nan (pre ++ [x]).
Proof.
  intros Hpre Hx y Hy. apply elem_of_app in Hy as [Hy | Hy]; [apply Hpre, Hy|].
  apply list_elem_of_singleton in Hy as ->. exact Hx.
Qed.

Lemma length_snoc (pre : list float) (x : float) :
  List.length (pre ++ [x]) = S (List.length pre).
Proof. rewrite length_app. simpl. lia. Qed.

(** The loop of [np.argmin], on arrays without NaN. *)
Lemma argmin_from_first_minimum (l pre : list float) (mp : float) (mi : nat) :
  no_nan (pre ++ l) ->
  first_minimum pre mi mp ->
  exists m, first_minimum (pre ++ l) (argmin_from mp mi (List.length pre) l) m.
Proof.
  revert pre mp mi.
  induction l as [|x l IH]; intros pre mp mi Hnan Hmin; simpl.
  - exists mp. rewrite app_nil_r. exact Hmin.
  - assert (Hx : is_nan x = false).
    { apply Hnan. apply elem_of_app. right. apply list_elem_of_here. }
    assert (Hmp : is_nan mp = false).
    { apply Hnan. apply elem_of_app. left.
      apply list_elem_of_lookup. exists mi. apply Hmin. }
    replace (pre ++ x :: l) with ((pre ++ [x]) ++ l) in *
      by (rewrite <- app_assoc; reflexivity).
    rewrite <- (length_snoc pre x).
    destruct (mp <=? x)%float eqn:Hcmp; simpl.
    + apply IH; [assumption | apply first_minimum_keep; assumption].
    + rewrite Hx.
      apply IH; [assumption | eapply first_minimum_replace; eassumption].
Qed.

(** The loop of [np.argmin], on every array: it stops at the first NaN. *)
Lemma argmin_from_first_unbeaten (l pre : list float) (mp : float) (mi : nat) :
  no_nan pre ->
  first_minimum pre mi mp ->
  exists m, first_unbeaten (pre ++ l) (argmin_from mp mi (List.length pre) l) m.
Proof.
  revert pre mp mi.
  induction l as [|x l IH]; intros pre mp mi Hnan Hmin; simpl.
  - exists mp. rewrite app_nil_r. apply first_minimum_unbeaten, Hmin.
  - assert (Hmp : is_nan mp = false).
    { apply Hnan. apply list_elem_of_lookup. exists mi. apply Hmin. }
    replace (pre ++ x :: l) with ((pre ++ [x]) ++ l)
      by (rewrite <- app_assoc; reflexivity).
    destruct (mp <=? x)%float eqn:Hcmp; simpl.
    + rewrite <- (length_snoc pre x).
      apply IH; [|apply first_minimum_keep; assumption].
      apply no_nan_snoc; [exact Hnan | eapply leb_not_nan_r, Hcmp].
    + destruct (is_nan x) eqn:Hx.
      * exists x. repeat split.
        -- rewrite lookup_app_l by (rewrite length_snoc; lia).
           rewrite lookup_app_r by lia.
           replace (List.length pre - List.length pre) with 0 by lia.
           reflexivity.
        -- intros j y _. apply (nan_unordered x y Hx).
        -- intros j y _ _. apply (nan_unordered x y Hx).
      * rewrite <- (length_snoc pre x).
        apply IH; [apply no_nan_snoc; assumption|].
        eapply first_minimum_replace; eassumption.
Qed.

Lemma first_minimum_singleton (x : float) :
  is_nan x = false -> first_minimum [x] 0 x.
Proof.
  intros Hx. repeat split.
  - intros [|j] y Hj; simpl in Hj; [|discriminate].
    injection Hj as <-. apply leb_refl, Hx.
  - intros j y _ Hj. lia.
Qed.

(** On a non-empty array without NaN, [np.argmin] returns the index of the
    first occurrence of the minimum. *)
Lemma np_argmin_first_minimum (l : list float) (r : nat) :
  np_argmin l = Ok r -> no_nan l -> exists m, first_minimum l r m.
Proof.
  destruct l as [|x l]; [discriminate|]. simpl. intros Hr Hnan.
  assert (Hx : is_nan x = false) by (apply Hnan, list_elem_of_here).
  rewrite Hx in Hr. injection Hr as <-.
  apply (argmin_from_first_minimum l [x] x 0 Hnan).
  apply first_minimum_singleton, Hx.
Qed.

(** On every non-empty array, no element is below the one [np.argmin]
    selects, and no earlier element is as low. *)
Lemma np_argmin_first_unbeaten (l : list float) :
  l <> [] -> exists r m, np_argmin l = Ok r /\ first_unbeaten l r m.
Proof.
  destruct l as [|x l]; [congruence|]. intros _. simpl.
  destruct (is_nan x) eqn:Hx.
  - exists 0, x. split; [reflexivity|]. repeat split.
    + intros j y _. apply (nan_unordered x y Hx).
    + intros j y _ Hj. lia.
  - destruct (argmin_from_first_unbeaten l [x] x 0) as [m Hm].
    + intros y Hy. apply list_elem_of_singleton in Hy as ->. exact Hx.
    + apply first_minimum_singleton, Hx.
    + eauto.
Qed.

Lemma dists_of_lookup (cities : list city) (lon lat : float) (i : nat) :
  dists_of cities lon lat !! i =
  (fun c => haversine_km lon lat (Long c) (Lat c)) <$> cities !! i.
Proof.
  unfold dists_of, haversine. revert i.
  induction cities as [|c cities IH]; intros [|i]; simpl; try reflexivity.
  apply IH.
Qed.

Lemma dists_of_length (cities : list city) (lon lat : float) :
  List.length (dists_of cities lon lat) = List.length cities.
Proof.
  unfold dists_of, haversine.
  induction cities as [|c cities IH]; simpl; [reflexivity | now rewrite IH].
Qed.

(** The loop body on a station whose two coordinates convert with [float]
    and a non-empty city table: no city is nearer than the chosen one and no
    earlier city is as near; when the computed distances are numbers, the
    chosen distance is at most every distance and below every earlier
    one. *)
Lemma step_selects_first_unbeaten
    (cities : list city) (st : state) (s : station) (lon lat : float) :
  py_float (longitude s) = Ok lon ->
  py_float (latitude s) = Ok lat ->
  cities <> [] ->
  exists i c,
    cities !! i = Some c /\
    step cities st s = Ok (assigned st s c (distance_to lon lat c)) /\
    (forall j c', cities !! j = Some c' ->
       (distance_to lon lat c' <? distance_to lon lat c)%float = false) /\
    (forall j c', cities !! j = Some c' -> j < i ->
       (distance_to lon lat c' <=? distance_to lon lat c)%float = false) /\
    ((forall c', c' ∈ cities -> is_nan (distance_to lon lat c') = false) ->
     (forall j c', cities !! j = Some c' ->
        (distance_to lon lat c <=? distance_to lon lat c')%float = true) /\
     (forall j c', cities !! j = Some c' -> j < i ->
        (distance_to lon lat c <? distance_to lon lat c')%float = true)).
Proof.
  intros Hlon Hlat Hne.
  destruct (np_argmin_first_unbeaten (dists_of cities lon lat))
    as (r & m & Hr & Hm & Hnlt & Hnle).
  { intros Hnil. apply (f_equal List.length) in Hnil.
    rewrite dists_of_length in Hnil.
    destruct cities; [congruence | discriminate]. }
  rewrite dists_of_lookup in Hm.
  destruct (cities !! r) as [c|] eqn:Hc; [|discriminate].
  injection Hm as <-.
  exists r, c. split; [exact Hc|]. split; [|split; [|split]].
  - unfold step, read_coords, nearest. rewrite Hlon, Hlat. simpl.
    rewrite Hr. simpl. rewrite Hc, dists_of_lookup, Hc. reflexivity.
  - intros j c' Hj. apply (Hnlt j). rewrite dists_of_lookup, Hj. reflexivity.
  - intros j c' Hj Hji. apply (Hnle j); [|exact Hji].
    rewrite dists_of_lookup, Hj. reflexivity.
  - intros Hnan.
    destruct (np_argmin_first_minimum _ _ Hr) as (m & Hm & Hle & Hlt).
    { intros x Hx. apply list_elem_of_lookup in Hx as [i Hi].
      rewrite dists_of_lookup in Hi.
      destruct (cities !! i) as [c'|] eqn:Hc'; [|discriminate].
      injection Hi as <-. apply Hnan. apply list_elem_of_lookup. eauto. }
    rewrite dists_of_lookup, Hc in Hm. injection Hm as <-.
    split.
    + intros j c' Hj. apply (Hle j). rewrite dists_of_lookup, Hj. reflexivity.
    + intros j c' Hj Hji. apply (Hlt j); [|exact Hji].
      rewrite dists_of_lookup, Hj. reflexivity.
Qed.

(** [haversine] computes the great-circle distance of the specification. *)
Lemma haversine_km_great_circle (lon1 lat1 lon2 lat2 : float) :
  haversine_km lon1 lat1 lon2 lat2 = great_circle_km lon1 lat1 lon2 lat2.
Proof. reflexivity. Qed.

Lemma distance_to_great_circle (lon lat : float) (c : city) :
  distance_to lon lat c = great_circle_km lon lat (Long c) (Lat c).
Proof. apply haversine_km_great_circle. Qed.

(** C7 (amended).  Let the two coordinates of a station convert with
    [float], let the city table be non-empty, and let the great-circle
    distance (radius 6371 km, half-angle form) from the station to every
    city be a number, none of them NaN.  Then the loop body appends one row
    for the station, and the row names a city of the table, with its
    province and its great-circle distance from the station, such that this
    distance is at most the distance of every city, and strictly below the
    distance of every city that stands earlier in the table: of several
    cities at the minimum distance, the first is chosen. *)
Theorem nearest_city_is_first_minimum
    (cities : list city) (st : state) (s : station) (lon lat : float) :
  py_float (longitude s) = Ok lon ->
  py_float (latitude s) = Ok lat ->
  cities <> [] ->
  (forall c, c ∈ cities ->
     is_nan (great_circle_km lon lat (Long c) (Lat c)) = false) ->
  exists i c st' r,
    cities !! i = Some c /\
    step cities st s = Ok st' /\
    rows st' = rows st ++ [r] /\
    src r = s /\
    nearest_city r = Name_EN c /\
    province_code r = Province c /\
    distance_to_city_km r = great_circle_km lon lat (Long c) (Lat c) /\
    (forall j c', cities !! j = Some c' ->
       (great_circle_km lon lat (Long c) (Lat c)
        <=? great_circle_km lon lat (Long c') (Lat c'))%float = true) /\
    (forall j c', cities !! j = Some c' -> j < i ->
       (great_circle_km lon lat (Long c) (Lat c)
        <? great_circle_km lon lat (Long c') (Lat c'))%float = true).
Proof.
  intros Hlon Hlat Hne Hnan.
  destruct (step_selects_first_unbeaten cities st s lon lat Hlon Hlat Hne)
    as (i & c & Hc & Hstep & _ & _ & Hmin).
  destruct Hmin as [Hle Hlt].
  { intros c' Hc'. rewrite distance_to_great_circle. apply Hnan, Hc'. }
  exists i, c, (assigned st s c (distance_to lon lat c)),
    (assigned_row s c (distance_to lon lat c)).
  split; [exact Hc|]. split; [exact Hstep|].
  split; [reflexivity|]. split; [reflexivity|].
  split; [reflexivity|]. split; [reflexivity|].
  split; [apply distance_to_great_circle|].
  split.
  - intros j c' Hj. rewrite <- !distance_to_great_circle. eapply Hle, Hj.
  - intros j c' Hj Hji. rewrite <- !distance_to_great_circle.
    eapply Hlt; eassumption.
Qed.

Lemma argmin_from_lt (l : list float) (mp : float) (mi i : nat) :
  mi < i -> argmin_from mp mi i l < i + List.length l.
Proof.
  revert mp mi i.
  induction l as [|x l IH]; intros mp mi i Hlt; simpl; [lia|].
  destruct (negb (mp <=? x)%float).
  - destruct (is_nan x); [lia|].
    specialize (IH x i (S i)). lia.
  - specialize (IH mp mi (S i)). lia.
Qed.

Lemma np_argmin_lt (l : list float) :
  l <> [] -> exists r, np_argmin l = Ok r /\ r < List.length l.
Proof.
  destruct l as [|x l]; [congruence|]. intros _. simpl.
  eexists. split; [reflexivity|].
  destruct (is_nan x); [lia|].
  pose proof (argmin_from_lt l x 0 1). lia.
Qed.

(** Whatever the two floats are, a station with float coordinates is
    assigned one of the cities. *)
Lemma step_assigns (cities : list city) (st : state) (s : station)
    (lon lat : float) :
  py_float (longitude s) = Ok lon ->
  py_float (latitude s) = Ok lat ->
  cities <> [] ->
  exists c, c ∈ cities /\
    step cities st s = Ok (assigned st s c (distance_to lon lat c)).
Proof.
  intros Hlon Hlat Hne.
  destruct (np_argmin_lt (dists_of cities lon lat)) as (r & Hr & Hlt).
  - intros Hnil. apply (f_equal List.length) in Hnil.
    rewrite dists_of_length in Hnil. destruct cities; [congruence | discriminate].
  - rewrite dists_of_length in Hlt.
    apply lookup_lt_is_Some_2 in Hlt as [c Hc].
    exists c. split; [apply list_elem_of_lookup; eauto|].
    unfold step, read_coords, nearest. rewrite Hlon, Hlat. simpl.
    rewrite Hr. simpl. rewrite Hc, dists_of_lookup, Hc. reflexivity.
Qed.

(** A coordinate that [float] rejects, [None] or a string that is not a
    numeral, sends the station to the 'no_coords' branch. *)
Lemma step_no_coords (cities : list city) (st : state) (s : station) (e : exn) :
  e = ValueError \/ e = TypeError ->
  py_float (longitude s) = Raise e \/
  (exists lon, py_float (longitude s) = Ok lon /\
               py_float (latitude s) = Raise e) ->
  step cities st s = Ok (unassigned st s).
Proof.
  intros He Hraise. unfold step, read_coords.
  destruct Hraise as [-> | (lon & -> & ->)]; simpl;
    destruct He as [-> | ->]; reflexivity.
Qed.

(** C1.  A station whose longitude cell is empty (the float NaN after
    [pd.read_csv]) is not counted as 'no_coords': [float(nan)] raises
    nothing, and whenever there is a city the station is given one, with its
    province and a distance, and is counted as filled. *)
Theorem missing_longitude_is_assigned
    (c : city) (cities : list city) (st : state) (sid : ident) (lat : float) :
  let s := {| station_id := sid; longitude := VFloat nan;
              latitude := VFloat lat |} in
  exists c', c' ∈ c :: cities /\
    step (c :: cities) st s = Ok (assigned st s c' (distance_to nan lat c'))
    /\ step (c :: cities) st s <> Ok (unassigned st s).
Proof.
  intros s.
  destruct (step_assigns (c :: cities) st s nan lat) as (c' & Hin & Hrow);
    [reflexivity | reflexivity | discriminate |].
  exists c'. split; [exact Hin|]. split; [exact Hrow|].
  rewrite Hrow. intros Heq. injection Heq as _ Hfilled _. lia.
Qed.

End NearestCity.

Section NearestCityRuns.

Local Existing Instance ExampleLib.lib.

(** The station at (1, 1) is given one of CityX and CityY, at most as far
    as either, both distances being numbers. *)
Lemma nearest_city_scenario :
  exists i c st' r,
    [CityX; CityY] !! i = Some c /\
    AssignProvinces.step [CityX; CityY] start station_1_1 = Ok st' /\
    AssignProvinces.rows st' = AssignProvinces.rows start ++ [r] /\
    AssignProvinces.src r = station_1_1 /\
    AssignProvinces.nearest_city r = AssignProvinces.Name_EN c /\
    AssignProvinces.province_code r = AssignProvinces.Province c /\
    AssignProvinces.distance_to_city_km r
    = great_circle_km 1 1 (AssignProvinces.Long c) (AssignProvinces.Lat c) /\
    (forall j c', [CityX; CityY] !! j = Some c' ->
       (great_circle_km 1 1 (AssignProvinces.Long c) (AssignProvinces.Lat c)
        <=? great_circle_km 1 1 (AssignProvinces.Long c')
              (AssignProvinces.Lat c'))%float = true) /\
    (forall j c', [CityX; CityY] !! j = Some c' -> (j < i)%nat ->
       (great_circle_km 1 1 (AssignProvinces.Long c) (AssignProvinces.Lat c)
        <? great_circle_km 1 1 (AssignProvinces.Long c')
             (AssignProvinces.Lat c'))%float = true).
Proof.
  apply (nearest_city_is_first_minimum [CityX; CityY] start station_1_1 1 1).
  - reflexivity.
  - reflexivity.
  - discriminate.
  - intros c Hc.
    apply elem_of_cons in Hc as [-> | Hc]; [vm_compute; reflexivity|].
    apply list_elem_of_singleton in Hc as ->. vm_compute. reflexivity.
Defined.

(** C7, refuted as stated.  CityBeyond has the latitude 'inf', which
    [dropna] keeps; its distance from the station at (1, 1) is NaN, which
    [np.argmin] takes for the minimum.  [main] gives the station CityBeyond,
    although CityX is 157 km away and the distance of CityBeyond is not at
    most that of CityX. *)
Lemma nan_distance_is_taken_for_the_minimum :
  exists st r,
    AssignProvinces.main [station_1_1] [CityX; CityBeyond] = Ok st /\
    AssignProvinces.rows st = [r] /\
    AssignProvinces.nearest_city r = VStr (py "CityBeyond") /\
    AssignProvinces.province_code r = VStr (py "ProvD") /\
    is_nan (AssignProvinces.distance_to_city_km r) = true /\
    is_nan (great_circle_km 1 1 (AssignProvinces.Long CityBeyond)
              (AssignProvinces.Lat CityBeyond)) = true /\
    is_nan (great_circle_km 1 1 (AssignProvinces.Long CityX)
              (AssignProvinces.Lat CityX)) = false /\
    (great_circle_km 1 1 (AssignProvinces.Long CityX)
       (AssignProvinces.Lat CityX) <? 158)%float = true /\
    (great_circle_km 1 1 (AssignProvinces.Long CityBeyond)
       (AssignProvinces.Lat CityBeyond)
     <=? great_circle_km 1 1 (AssignProvinces.Long CityX)
           (AssignProvinces.Lat CityX))%float = false.
Proof.
  eexists. eexists. split; [vm_compute; reflexivity|].
  repeat split; vm_compute; reflexivity.
Qed.

Example nearest_city_scenario_run :
  AssignProvinces.step [CityX; CityY] start station_1_1
  = Ok (assigned start station_1_1 CityX (distance_to 1 1 CityX)).
Proof. vm_compute. reflexivity. Qed.

End NearestCityRuns.

(** ** Exceptions and loops *)

Lemma bind_Ok {A B : Type} (m : res A) (k : A -> res B) (b : B) :
  bind m k = Ok b -> exists a, m = Ok a /\ k a = Ok b.
Proof. destruct m as [a|e]; simpl; [eauto | discriminate]. Qed.

Lemma for_each_app {A S : Type} (body : S -> A -> res S) (l1 l2 : list A)
    (st : S) :
  for_each body (l1 ++ l2) st = bind (for_each body l1 st) (for_each body l2).
Proof.
  revert st. induction l1 as [|x l1 IH]; intros st; simpl; [reflexivity|].
  destruct (body st x) as [st'|e]; simpl; [apply IH | reflexivity].
Qed.

(** ** The station index *)

Section StationIndex.

Import BuildNetwork.
Context `{PyLib}.

Lemma name_to_id_fold (stations : list station) :
  name_to_id stations = fold_left index_step stations ∅.
Proof. reflexivity. Qed.

Lemma fold_index_other (k : pystr) (l : list station) (m : gmap pystr ident) :
  (forall s, s ∈ l -> key_of s <> k) ->
  fold_left index_step l m !! k = m !! k.
Proof.
  revert m. induction l as [|r l IH]; intros m Hl; simpl; [reflexivity|].
  rewrite IH.
  - unfold index_step. apply lookup_insert_ne. apply Hl, list_elem_of_here.
  - intros s Hs. apply Hl. apply list_elem_of_further, Hs.
Qed.

Lemma fold_index_shadow (k : pystr) (v : ident) (l : list station)
    (m : gmap pystr ident) :
  (exists s, s ∈ l /\ key_of s = k) ->
  fold_left index_step l (<[k := v]> m) = fold_left index_step l m.
Proof.
  revert m. induction l as [|r l IH]; intros m (s & Hs & Hk).
  - apply elem_of_nil in Hs. destruct Hs.
  - simpl. unfold index_step at 2 4.
    destruct (decide (key_of r = k)) as [Heq | Hne].
    + rewrite Heq, insert_insert_eq. reflexivity.
    + rewrite insert_insert_ne by congruence.
      apply IH. exists s. split; [|exact Hk].
      apply elem_of_cons in Hs as [-> | Hs]; [congruence | exact Hs].
Qed.

(** The entry of a key is the identifier of the last station carrying it. *)
Lemma name_to_id_last (l1 : list station) (s : station) (l2 : list station) :
  (forall s', s' ∈ l2 -> key_of s' <> key_of s) ->
  name_to_id (l1 ++ s :: l2) !! key_of s = Some (station_id s).
Proof.
  intros Hl2. rewrite name_to_id_fold, fold_left_app. simpl.
  rewrite fold_index_other by exact Hl2.
  unfold index_step. apply lookup_insert_eq.
Qed.

Lemma name_to_id_absent (k : pystr) (l : list station) :
  (forall s, s ∈ l -> key_of s <> k) -> name_to_id l !! k = None.
Proof.
  intros Hl. rewrite name_to_id_fold, fold_index_other by exact Hl.
  apply lookup_empty.
Qed.

(** C4 (amended).  The index gives the empty canonical key no special
    treatment.  A label that canonicalizes to the empty key resolves to the
    identifier of the last station whose name canonicalizes to the empty
    key, and is unresolved only when there is no such station. *)
Theorem empty_key_is_an_ordinary_key (stations : list station) (label : value) :
  normalize_name label = [] ->
  (forall l1 s l2,
     stations = l1 ++ s :: l2 -> key_of s = [] ->
     (forall s', s' ∈ l2 -> key_of s' <> []) ->
     name_to_id stations !! normalize_name label = Some (station_id s)) /\
  ((forall s, s ∈ stations -> key_of s <> []) ->
   name_to_id stations !! normalize_name label = None).
Proof.
  intros Hlabel. rewrite Hlabel. split.
  - intros l1 s l2 -> Hs Hl2. rewrite <- Hs. apply name_to_id_last.
    rewrite Hs. exact Hl2.
  - apply name_to_id_absent.
Qed.

(** C5 (amended).  When an earlier station [s1] and a later station [s2]
    have the same canonical key, the index maps the key to the identifier of
    the later one (if no station after [s2] carries it), and the index is
    the one built from the table without [s1]: the earlier identifier is
    overwritten and nothing about the collision is kept. *)
Theorem later_identifier_wins (l1 : list station) (s1 : station)
    (l2 : list station) (s2 : station) (l3 : list station) :
  key_of s1 = key_of s2 ->
  (forall s, s ∈ l3 -> key_of s <> key_of s2) ->
  name_to_id (l1 ++ s1 :: l2 ++ s2 :: l3) !! key_of s2 = Some (station_id s2) /\
  name_to_id (l1 ++ s1 :: l2 ++ s2 :: l3) = name_to_id (l1 ++ l2 ++ s2 :: l3).
Proof.
  intros Hkey Hl3. split.
  - replace (l1 ++ s1 :: l2 ++ s2 :: l3) with ((l1 ++ s1 :: l2) ++ s2 :: l3)
      by (rewrite <- app_assoc; reflexivity).
    apply name_to_id_last, Hl3.
  - rewrite !name_to_id_fold, (fold_left_app _ l1), (fold_left_app _ l1).
    cbn [fold_left].
    apply (fold_index_shadow (key_of s1) (station_id s1)).
    exists s2. split; [|congruence].
    apply elem_of_app. right. apply list_elem_of_here.
Qed.

End StationIndex.

(** ** The edge loop of the network builder *)

Section EdgeLoop.

Import BuildNetwork.
Context `{PyLib}.

Local Open Scope nat_scope.

Lemma add_track_skips (index : gmap pystr ident) (st : state) (row : track) :
  truthy_opt (start_id index row) && truthy_opt (end_id index row) = false ->
  add_track index st row = Ok (skipped index st row).
Proof.
  unfold add_track, skipped, start_id, end_id.
  destruct (index !! normalize_name (start_station row)) as [u|];
    destruct (index !! normalize_name (end_station row)) as [v|];
    simpl; try reflexivity.
  intros ->. reflexivity.
Qed.

Lemma add_track_adds (index : gmap pystr ident) (st : state) (row : track)
    (u v : ident) :
  start_id index row = Some u -> end_id index row = Some v ->
  truthy u = true -> truthy v = true ->
  add_track index st row =
  bind (edge_attrs_of row) (fun a =>
    Ok {| G := add_edge (G st) u v a;
          edges_added := S (edges_added st);
          missing_stations := missing_stations st |}).
Proof.
  unfold add_track, start_id, end_id. intros -> -> -> ->. reflexivity.
Qed.

Lemma truthy_opt_truthy_entries (index : gmap pystr ident) (k : pystr) :
  truthy_opt (truthy_entries index !! k) = truthy_opt (index !! k).
Proof.
  unfold truthy_entries.
  destruct (index !! k) as [u|] eqn:Hk.
  - destruct (truthy u) eqn:Hu.
    + erewrite map_lookup_filter_Some_2; [reflexivity|exact Hk|exact Hu].
    + rewrite map_lookup_filter_None_2; [simpl; congruence|].
      right. intros u' Hu'. simpl. congruence.
  - rewrite map_lookup_filter_None_2; [reflexivity|]. left. exact Hk.
Qed.

(** C9.  When an endpoint label resolves to a falsy identifier, the record
    is skipped: the graph and the edge counter are unchanged and the raw
    label of every endpoint that is falsy or unresolved is appended to
    [missing_stations]; the falsy endpoint's label is among them.  The loop
    body behaves on every record as it does with the falsy identifiers
    removed from the index. *)
Theorem falsy_identifier_is_treated_as_missing
    (index : gmap pystr ident) (st : state) (row : track) (u : ident) :
  truthy u = false ->
  start_id index row = Some u \/ end_id index row = Some u ->
  add_track index st row = Ok (skipped index st row) /\
  G (skipped index st row) = G st /\
  edges_added (skipped index st row) = edges_added st /\
  (start_id index row = Some u ->
   start_station row ∈ missing_stations (skipped index st row)) /\
  (end_id index row = Some u ->
   end_station row ∈ missing_stations (skipped index st row)) /\
  add_track index st row = add_track (truthy_entries index) st row.
Proof.
  intros Hu Hor.
  assert (Hskip : truthy_opt (start_id index row)
                  && truthy_opt (end_id index row) = false).
  { destruct Hor as [-> | ->]; simpl; rewrite Hu;
      [reflexivity | apply andb_false_r]. }
  split; [apply add_track_skips, Hskip|].
  split; [reflexivity|]. split; [reflexivity|].
  split; [|split].
  - intros Hs. unfold skipped. simpl. rewrite Hs. simpl. rewrite Hu.
    apply elem_of_app. right. apply list_elem_of_here.
  - intros He. unfold skipped. simpl. rewrite He. simpl. rewrite Hu.
    apply elem_of_app. right. apply elem_of_app. right. apply list_elem_of_here.
  - rewrite add_track_skips by exact Hskip.
    rewrite add_track_skips.
    + unfold skipped, start_id, end_id.
      rewrite !truthy_opt_truthy_entries. reflexivity.
    + unfold start_id, end_id. rewrite !truthy_opt_truthy_entries.
      exact Hskip.
Qed.

(** C6 (amended).  A record whose two endpoints resolve to truthy
    identifiers and whose year is present but cannot be converted by [int]
    is not skipped: the exception leaves the edge loop, the handlers at the
    end of [main] catch it and [main] returns False without a graph. *)
Theorem unconvertible_year_aborts_main
    (stations : list station) (l1 : list track) (row : track)
    (l2 : list track) (u v : ident) (e : exn) :
  start_id (name_to_id stations) row = Some u ->
  end_id (name_to_id stations) row = Some v ->
  truthy u = true -> truthy v = true ->
  pd_notna (year row) = true ->
  py_int (year row) = Raise e ->
  exists e', main stations (l1 ++ row :: l2) = ReturnedFalse e'.
Proof.
  intros Hs He Hu Hv Hnotna Hint.
  unfold main, build_graph. rewrite for_each_app.
  destruct (for_each _ l1 _) as [st1|e1]; simpl; [|eauto].
  rewrite (add_track_adds _ _ _ u v) by assumption.
  unfold edge_attrs_of, year_int. rewrite Hnotna, Hint. simpl. eauto.
Qed.






End EdgeLoop.

(** ** The simple graph of the analysis script *)

Section SimpleGraph.

Import BuildAndPlot.
Local Open Scope nat_scope.

Lemma fold_add_node_edges (stations : list station) (G : graph) :
  edges (fold_left add_node stations G) = edges G.
Proof.
  revert G. induction stations as [|s l IH]; intros G; simpl; [reflexivity|].
  rewrite IH. reflexivity.
Qed.

Lemma fold_add_node_dom (stations : list station) (G : graph) :
  dom (nodes (fold_left add_node stations G))
  = station_ids stations ∪ dom (nodes G).
Proof.
  revert G. unfold station_ids.
  induction stations as [|s l IH]; intros G; simpl.
  - rewrite (left_id_L ∅ (∪)). reflexivity.
  - rewrite IH. simpl. rewrite dom_insert_L.
    rewrite (assoc_L (∪)), (comm_L (∪) (list_to_set _)). reflexivity.
Qed.

Lemma touch_known (n : ident) (m : gmap ident (option station)) :
  n ∈ dom m -> touch n m = m.
Proof.
  intros Hn. apply elem_of_dom in Hn as [x Hx]. unfold touch. now rewrite Hx.
Qed.

Lemma add_edge_row_nodes (G : graph) (row : edge_row) :
  nodes (add_edge_row G row) = nodes G.
Proof.
  unfold add_edge_row.
  destruct (bool_decide (source_station row ∈ dom (nodes G))) eqn:Hs;
    [|reflexivity].
  destruct (bool_decide (target_station row ∈ dom (nodes G))) eqn:Ht;
    [|reflexivity].
  apply bool_decide_eq_true_1 in Hs, Ht. simpl.
  rewrite (touch_known _ _ Hs), (touch_known _ _ Ht). reflexivity.
Qed.

Lemma fold_add_edge_row_nodes (rows : list edge_row) (G : graph) :
  nodes (fold_left add_edge_row rows G) = nodes G.
Proof.
  revert G. induction rows as [|r l IH]; intros G; simpl; [reflexivity|].
  rewrite IH. apply add_edge_row_nodes.
Qed.

Lemma put_edge_ends (u v : ident) (a : edge_attrs) (es : list edge) (e : edge) :
  e ∈ put_edge u v a es ->
  (exists e0, e0 ∈ es /\ source e = source e0 /\ target e = target e0) \/
  (source e = u /\ target e = v).
Proof.
  induction es as [|e0 es IH]; simpl.
  - intros He. apply list_elem_of_singleton in He as ->. right. auto.
  - destruct (joins u v e0).
    + intros He. apply elem_of_cons in He as [-> | He].
      * left. exists e0. split; [apply list_elem_of_here | auto].
      * left. exists e. split; [apply list_elem_of_further, He | auto].
    + intros He. apply elem_of_cons in He as [-> | He].
      * left. exists e0. split; [apply list_elem_of_here | auto].
      * destruct (IH He) as [(e1 & H1 & Hst) | Hnew]; [|right; exact Hnew].
        left. exists e1. split; [apply list_elem_of_further, H1 | exact Hst].
Qed.

Lemma add_edge_row_closed (G : graph) (row : edge_row) :
  closed G -> closed (add_edge_row G row).
Proof.
  intros HG e. rewrite add_edge_row_nodes. unfold add_edge_row.
  destruct (bool_decide (source_station row ∈ dom (nodes G))) eqn:Hs;
    [|apply HG].
  destruct (bool_decide (target_station row ∈ dom (nodes G))) eqn:Ht;
    [|apply HG].
  apply bool_decide_eq_true_1 in Hs, Ht. simpl. intros He.
  apply put_edge_ends in He as [(e0 & H0 & -> & ->) | [-> ->]];
    [apply HG, H0 | split; assumption].
Qed.

Lemma fold_add_edge_row_closed (rows : list edge_row) (G : graph) :
  closed G -> closed (fold_left add_edge_row rows G).
Proof.
  revert G. induction rows as [|r l IH]; intros G HG; simpl; [exact HG|].
  apply IH, add_edge_row_closed, HG.
Qed.

Lemma add_edge_row_absent (G : graph) (row : edge_row) :
  source_station row ∉ dom (nodes G) \/ target_station row ∉ dom (nodes G) ->
  add_edge_row G row = G.
Proof.
  intros Habs. unfold add_edge_row.
  destruct Habs as [Hs | Ht].
  - rewrite (bool_decide_eq_false_2 _ Hs). reflexivity.
  - rewrite (bool_decide_eq_false_2 _ Ht), andb_false_r. reflexivity.
Qed.

Lemma build_networkx_graph_dom (stations : list station) (rows : list edge_row) :
  dom (nodes (build_networkx_graph stations rows)) = station_ids stations.
Proof.
  unfold build_networkx_graph.
  rewrite fold_add_edge_row_nodes, fold_add_node_dom. simpl.
  rewrite dom_empty_L. apply (right_id_L ∅ (∪)).
Qed.

(** C10.  The nodes of the graph returned by [build_networkx_graph] are the
    identifiers of the station table, both ends of every edge are among
    them, and an edge record that names an identifier outside the station
    table leaves no trace: the graph, and the two counts printed, are those
    of the run without the record. *)
Theorem edges_join_station_nodes (stations : list station)
    (rows : list edge_row) :
  let G := build_networkx_graph stations rows in
  dom (nodes G) = station_ids stations /\
  (forall e, e ∈ edges G ->
     source e ∈ station_ids stations /\ target e ∈ station_ids stations) /\
  (forall rows1 row rows2,
     rows = rows1 ++ row :: rows2 ->
     source_station row ∉ station_ids stations \/
     target_station row ∉ station_ids stations ->
     G = build_networkx_graph stations (rows1 ++ rows2) /\
     build_log G = build_log (build_networkx_graph stations (rows1 ++ rows2))).
Proof.
  intros G. split; [apply build_networkx_graph_dom|]. split.
  - intros e He. rewrite <- (build_networkx_graph_dom stations rows).
    revert e He. apply fold_add_edge_row_closed.
    intros e. rewrite fold_add_node_edges. simpl. intros He.
    apply elem_of_nil in He. destruct He.
  - intros rows1 row rows2 -> Habs.
    assert (HG : G = build_networkx_graph stations (rows1 ++ rows2));
      [|split; [exact HG | rewrite <- HG; reflexivity]].
    unfold G, build_networkx_graph. rewrite !fold_left_app. simpl.
    rewrite add_edge_row_absent; [reflexivity|].
    rewrite fold_add_edge_row_nodes, fold_add_node_dom. simpl.
    rewrite dom_empty_L, (right_id_L ∅ (∪)). exact Habs.
Qed.

Lemma number_connected_components_no_edges (G : graph) :
  edges G = [] -> number_connected_components G = number_of_nodes G.
Proof.
  intros HE. unfold number_connected_components, connected_components.
  rewrite HE. simpl. rewrite length_map.
  unfold number_of_nodes. rewrite <- size_dom. reflexivity.
Qed.

Lemma density_small (G : graph) :
  number_of_nodes G < 2 \/ number_of_edges G = 0 -> density G = Ok (VInt 0).
Proof.
  intros Hsmall. unfold density.
  destruct (Z.of_nat (number_of_edges G) =? 0)%Z eqn:Hm; [reflexivity|].
  destruct (Z.of_nat (number_of_nodes G) <=? 1)%Z eqn:Hn; [reflexivity|].
  apply Z.eqb_neq in Hm. apply Z.leb_gt in Hn. lia.
Qed.

Lemma density_total (G : graph) : exists d, density G = Ok d.
Proof.
  unfold density.
  destruct (Z.of_nat (number_of_edges G) =? 0)%Z; [simpl; eauto|].
  destruct (Z.of_nat (number_of_nodes G) <=? 1)%Z eqn:Hn; [simpl; eauto|].
  simpl. apply Z.leb_gt in Hn. unfold py_truediv.
  destruct (_ =? 0)%Z eqn:Hz; [|simpl; eauto].
  apply Z.eqb_eq in Hz. nia.
Qed.

(** C8.  The statistics of every graph are computed without a division
    error; the density is 0 when the graph has fewer than two nodes and when
    it has no edge; a graph without edges has as many components as nodes. *)
Theorem network_stats_without_division_error (G : graph) :
  (exists s, network_stats G = Ok s) /\
  (number_of_nodes G < 2 -> density G = Ok (VInt 0)) /\
  (edges G = [] ->
   network_stats G = Ok {| s_nodes := number_of_nodes G;
                           s_edges := 0;
                           s_connected_components := number_of_nodes G;
                           s_density := VInt 0 |}).
Proof.
  split; [|split].
  - unfold network_stats. destruct (density_total G) as [d ->]. simpl. eauto.
  - intros Hn. apply density_small. left. exact Hn.
  - intros HE. unfold network_stats.
    rewrite density_small by (right; unfold number_of_edges; now rewrite HE).
    simpl. rewrite number_connected_components_no_edges by exact HE.
    unfold number_of_edges. rewrite HE. reflexivity.
Qed.

End SimpleGraph.

(** ** Runs of the network builder *)

Section NetworkRuns.

Import BuildNetwork.
Local Existing Instance ExampleLib.lib.
Local Open Scope nat_scope.

(** C3.  [normalize_name] is not idempotent: the punctuation is deleted after
    the whitespace has been stripped and collapsed, so deleting the dash of
    'a - b' leaves two spaces, which a second pass collapses. *)
Theorem normalize_name_not_idempotent :
  normalize_name (VStr (py "a - b")) = py "a  b" /\
  normalize_name (VStr (normalize_name (VStr (py "a - b")))) = py "a b".
Proof. split; reflexivity. Qed.

(** C4, refuted as stated: a station named by punctuation alone is stored
    under the empty key, and a record whose two labels canonicalize to the
    empty key resolves to it at both ends and becomes a self-loop. *)
Lemma empty_key_endpoints_resolve :
  normalize_name (start_station track_dashes) = [] /\
  normalize_name (end_station track_dashes) = [] /\
  exists st,
    build_graph [Alpha; Dots] [track_dashes] = Ok st /\
    edges (G st) =
      [ {| source := S2; target := S2; key := 0;
           attrs := {| e_length := VFloat 10; e_year := None;
                       e_year_raw := VFloat nan;
                       e_type := VStr (py "rail_good");
                       e_edge_id := VNone |} |} ] /\
    missing_stations st = [].
Proof.
  split; [reflexivity|]. split; [reflexivity|].
  eexists. split; [vm_compute; reflexivity|].
  split; reflexivity.
Qed.

(** After a named and a nameless station, the station named '...' owns the
    empty key, and the label '--' resolves to it. *)
Lemma empty_key_witness :
  name_to_id [Alpha; Nameless; Dots] !! normalize_name (VStr (py "--"))
  = Some S2.
Proof.
  assert (Hkey : normalize_name (VStr (py "--")) = []) by reflexivity.
  destruct (empty_key_is_an_ordinary_key
              [Alpha; Nameless; Dots] (VStr (py "--")) Hkey) as [Hlast _].
  apply (Hlast [Alpha; Nameless] Dots []).
  - reflexivity.
  - reflexivity.
  - intros s Hs. apply elem_of_nil in Hs. destruct Hs.
Defined.

(** C5, refuted as stated: two stations with different identifiers and the
    same non-empty key give the index of the later station alone; the index
    is all the build keeps, so the collision is recorded nowhere. *)
Lemma collision_is_not_recorded :
  station_id Beijing1 <> station_id Beijing2 /\
  key_of Beijing1 = key_of Beijing2 /\
  key_of Beijing1 <> [] /\
  name_to_id [Beijing1; Beijing2] = name_to_id [Beijing2].
Proof.
  split; [discriminate|]. split; [reflexivity|]. split; [discriminate|].
  vm_compute. reflexivity.
Qed.

(** The two Beijing stations: the key maps to S2, as if S1 were not there. *)
Lemma later_identifier_wins_witness :
  name_to_id [Beijing1; Beijing2] !! key_of Beijing2 = Some S2 /\
  name_to_id [Beijing1; Beijing2] = name_to_id [Beijing2].
Proof.
  apply (later_identifier_wins [] Beijing1 [] Beijing2 []).
  - reflexivity.
  - intros s Hs. apply elem_of_nil in Hs. destruct Hs.
Defined.

(** C6, refuted as stated: a record with the year 'abc' after a good
    record; both endpoints resolve, the year is present, [int('abc')] raises
    ValueError, and [main] returns False: the good record's edge is lost
    with the rest of the run. *)
Lemma non_numeric_year_is_fatal :
  start_id (name_to_id [Alpha; Beta]) track_bad_year = Some S1 /\
  end_id (name_to_id [Alpha; Beta]) track_bad_year = Some S2 /\
  pd_notna (year track_bad_year) = true /\
  main [Alpha; Beta] [track_year_1990; track_bad_year]
  = ReturnedFalse ValueError.
Proof. repeat split; vm_compute; reflexivity. Qed.

(** The run with the years '1990' and 'abc'. *)
Lemma unconvertible_year_witness :
  exists e, main [Alpha; Beta] ([track_year_1990] ++ track_bad_year :: [])
            = ReturnedFalse e.
Proof.
  apply (unconvertible_year_aborts_main
           [Alpha; Beta] [track_year_1990] track_bad_year [] S1 S2 ValueError);
    reflexivity.
Defined.

(** With the station identifiers 0 and 1, the record from Alpha (station 0)
    to Beta is skipped and 'Alpha' is reported missing. *)
Lemma falsy_identifier_witness :
  let index := name_to_id [Zero; One] in
  let st := {| G := empty_graph; edges_added := 0; missing_stations := [] |} in
  add_track index st track_1990 = Ok (skipped index st track_1990) /\
  start_station track_1990 ∈ missing_stations (skipped index st track_1990).
Proof.
  intros index st.
  assert (Hstart : start_id index track_1990 = Some (IdInt 0)) by reflexivity.
  destruct (falsy_identifier_is_treated_as_missing
              index st track_1990 (IdInt 0) eq_refl (or_introl Hstart))
    as (Hskip & _ & _ & Hmissing & _).
  split; [exact Hskip | exact (Hmissing Hstart)].
Defined.


End NetworkRuns.

(** ** Runs of the analysis script's builder *)

Section SimpleGraphRuns.

Import BuildAndPlot.
Local Existing Instance ExampleLib.lib.
Local Open Scope nat_scope.


(** Stations A and B; the segment from A to the unknown C changes nothing. *)
Lemma edges_join_station_nodes_witness :
  build_networkx_graph [plain_station A; plain_station B]
    ([segment A B 1 10] ++ segment A C 2 20 :: [])
  = build_networkx_graph [plain_station A; plain_station B]
      ([segment A B 1 10] ++ []).
Proof.
  destruct (edges_join_station_nodes [plain_station A; plain_station B]
              ([segment A B 1 10] ++ segment A C 2 20 :: []))
    as (_ & _ & Hdrop).
  apply (Hdrop [segment A B 1 10] (segment A C 2 20) []).
  - reflexivity.
  - right. vm_compute. discriminate.
Defined.

(** Two stations joined by one segment: one component, density 1. *)
Example two_stations_one_segment :
  network_stats (build_networkx_graph [plain_station A; plain_station B]
                   [segment A B 1 10])
  = Ok {| s_nodes := 2; s_edges := 1; s_connected_components := 1;
          s_density := VFloat 1 |}.
Proof. vm_compute. reflexivity. Qed.

(** One station and no segment. *)
Lemma network_stats_witness :
  network_stats (build_networkx_graph [plain_station A] [])
  = Ok {| s_nodes := 1; s_edges := 0; s_connected_components := 1;
          s_density := VInt 0 |}.
Proof.
  destruct (network_stats_without_division_error
              (build_networkx_graph [plain_station A] []))
    as (_ & _ & Hzero).
  apply Hzero. reflexivity.
Defined.

End SimpleGraphRuns.

(** * Further properties *)

(** ** The province assignment as a whole *)

Section AssignmentRun.

Import AssignProvinces.
Local Open Scope nat_scope.
Context `{PyLib}.

Lemma drop_duplicates_from_elem (seen : gset ident) (l : list station)
    (s : station) :
  s ∈ drop_duplicates_from seen l <->
  exists l1 l2, l = l1 ++ s :: l2 /\ (station_id s ∉ seen) /\
                station_id s ∉ (station_id <$> l1).
Proof.
  split.
  - revert seen. induction l as [|a l IH]; intros seen; simpl.
    + intros Hs. apply elem_of_nil in Hs. destruct Hs.
    + destruct (decide (station_id a ∈ seen)) as [Ha | Ha].
      * intros Hs. apply IH in Hs as (l1 & l2 & -> & Hseen & Hl1).
        exists (a :: l1), l2. split; [reflexivity|]. split; [exact Hseen|].
        rewrite fmap_cons. intros Hin.
        apply elem_of_cons in Hin as [Heq | Hin]; [congruence | auto].
      * intros Hs. apply elem_of_cons in Hs as [-> | Hs].
        -- exists [], l. split; [reflexivity|]. split; [exact Ha|].
           simpl. apply not_elem_of_nil.
        -- apply IH in Hs as (l1 & l2 & -> & Hseen & Hl1).
           apply not_elem_of_union in Hseen as [Hsa Hseen].
           apply not_elem_of_singleton in Hsa.
           exists (a :: l1), l2. split; [reflexivity|]. split; [exact Hseen|].
           rewrite fmap_cons. intros Hin.
           apply elem_of_cons in Hin as [Heq | Hin]; [congruence | auto].
  - intros (l1 & l2 & -> & Hseen & Hl1). revert seen Hseen.
    induction l1 as [|a l1 IH]; intros seen Hseen; simpl.
    + rewrite decide_False by exact Hseen. apply list_elem_of_here.
    + rewrite fmap_cons in Hl1. apply not_elem_of_cons in Hl1 as [Hne Hl1].
      destruct (decide (station_id a ∈ seen)).
      * apply IH; assumption.
      * apply list_elem_of_further. apply IH; [exact Hl1|].
        apply not_elem_of_union. split; [|exact Hseen].
        apply not_elem_of_singleton. exact Hne.
Qed.

Lemma drop_duplicates_from_NoDup (seen : gset ident) (l : list station) :
  NoDup (station_id <$> drop_duplicates_from seen l).
Proof.
  revert seen. induction l as [|a l IH]; intros seen; simpl.
  - apply NoDup_nil_2.
  - destruct (decide (station_id a ∈ seen)); [apply IH|].
    rewrite fmap_cons. apply NoDup_cons_2; [|apply IH].
    intros Hin. apply list_elem_of_fmap in Hin as (s & Heq & Hs).
    apply drop_duplicates_from_elem in Hs as (_ & _ & _ & Hseen & _).
    apply Hseen. apply elem_of_union. left. apply elem_of_singleton.
    symmetry. exact Heq.
Qed.

Lemma first_row_of (i : ident) (l : list station) :
  i ∈ (station_id <$> l) ->
  exists l1 s l2, l = l1 ++ s :: l2 /\ station_id s = i /\
                  i ∉ (station_id <$> l1).
Proof.
  induction l as [|a l IH]; simpl.
  - intros Hi. apply elem_of_nil in Hi. destruct Hi.
  - intros Hi. destruct (decide (station_id a = i)) as [Ha | Ha].
    + exists [], a, l. split; [reflexivity|]. split; [exact Ha|].
      simpl. apply not_elem_of_nil.
    + apply elem_of_cons in Hi as [Hi | Hi]; [congruence|].
      destruct (IH Hi) as (l1 & s & l2 & -> & Hs & Hl1).
      exists (a :: l1), s, l2. split; [reflexivity|]. split; [exact Hs|].
      rewrite fmap_cons. apply not_elem_of_cons. split; [congruence | exact Hl1].
Qed.

Lemma drop_duplicates_from_sublist (seen : gset ident) (l : list station) :
  sublist (drop_duplicates_from seen l) l.
Proof.
  revert seen. induction l as [|a l IH]; intros seen; simpl.
  - apply sublist_nil.
  - destruct (decide (station_id a ∈ seen)).
    + apply sublist_cons, IH.
    + apply sublist_skip, IH.
Qed.

(** [drop_duplicates] keeps exactly the first row of every station
    identifier. *)
Lemma drop_duplicates_first_rows (stations : list station) :
  NoDup (station_id <$> drop_duplicates stations) /\
  (forall i, i ∈ (station_id <$> drop_duplicates stations) <->
             i ∈ (station_id <$> stations)) /\
  (forall s, s ∈ drop_duplicates stations <->
             exists l1 l2, stations = l1 ++ s :: l2 /\
                           station_id s ∉ (station_id <$> l1)).
Proof.
  assert (Hrows : forall s, s ∈ drop_duplicates stations <->
             exists l1 l2, stations = l1 ++ s :: l2 /\
                           station_id s ∉ (station_id <$> l1)).
  { intros s. unfold drop_duplicates. rewrite drop_duplicates_from_elem.
    split.
    - intros (l1 & l2 & Hl & _ & Hl1). eauto.
    - intros (l1 & l2 & Hl & Hl1). exists l1, l2.
      split; [exact Hl|]. split; [apply not_elem_of_empty | exact Hl1]. }
  split; [apply drop_duplicates_from_NoDup|]. split; [|exact Hrows].
  intros i. split.
  - intros Hi. apply list_elem_of_fmap in Hi as (s & -> & Hs).
    apply Hrows in Hs as (l1 & l2 & -> & _).
    apply list_elem_of_fmap. exists s. split; [reflexivity|].
    apply elem_of_app. right. apply list_elem_of_here.
  - intros Hi. apply first_row_of in Hi as (l1 & s & l2 & Hl & <- & Hl1).
    apply list_elem_of_fmap. exists s. split; [reflexivity|].
    apply Hrows. eauto.
Qed.

Lemma dists_of_fmap (cities : list city) (lon lat : float) :
  dists_of cities lon lat = distance_to lon lat <$> cities.
Proof.
  unfold dists_of, haversine, distance_to.
  induction cities as [|c cities IH]; simpl; [reflexivity | now rewrite IH].
Qed.

Lemma nearest_Ok (cities : list city) (lon lat : float) (c : city) (d : float) :
  nearest cities lon lat = Ok (c, d) ->
  c ∈ cities /\ d = distance_to lon lat c.
Proof.
  unfold nearest. intros Hn. apply bind_Ok in Hn as (i & _ & Hn).
  rewrite dists_of_fmap, list_lookup_fmap in Hn.
  destruct (cities !! i) as [c'|] eqn:Hc; simpl in Hn; [|discriminate].
  injection Hn as <- <-. split; [|reflexivity].
  apply list_elem_of_lookup. eauto.
Qed.

Lemma read_coords_cases (s : station) :
  (exists lon lat, py_float (longitude s) = Ok lon /\
                   py_float (latitude s) = Ok lat /\
                   read_coords s = Ok (Coords lon lat)) \/
  read_coords s = Ok NoCoords \/
  read_coords s = Raise OverflowError.
Proof.
  unfold read_coords.
  assert (Hkinds : forall v, (exists f, py_float v = Ok f) \/
                             py_float v = Raise ValueError \/
                             py_float v = Raise TypeError \/
                             py_float v = Raise OverflowError).
  { intros [|z|f|t]; simpl; eauto.
    - destruct (is_infinity (float_of_Z z)); eauto.
    - destruct (float_of_str t); eauto. }
  destruct (Hkinds (longitude s)) as [[lon ->] | [-> | [-> | ->]]]; simpl; auto.
  destruct (Hkinds (latitude s)) as [[lat ->] | [-> | [-> | ->]]]; simpl; eauto 8.
Qed.

Lemma step_cases (cities : list city) (st st' : state) (s : station) :
  step cities st s = Ok st' ->
  st' = unassigned st s \/
  exists c lon lat,
    c ∈ cities /\
    py_float (longitude s) = Ok lon /\
    py_float (latitude s) = Ok lat /\
    st' = assigned st s c (distance_to lon lat c).
Proof.
  unfold step.
  destruct (read_coords_cases s) as [(lon & lat & Hlon & Hlat & ->) | [-> | ->]];
    simpl.
  - intros Hst. apply bind_Ok in Hst as ([c d] & Hn & Hst).
    apply nearest_Ok in Hn as [Hc ->]. injection Hst as <-.
    right. exists c, lon, lat. auto.
  - intros Hst. injection Hst as <-. left. reflexivity.
  - discriminate.
Qed.

Lemma row_from_counts (cities : list city) (l : list row) :
  Forall (row_from cities) l ->
  List.length (filter was_assigned l) + List.length (filter was_skipped l)
  = List.length l.
Proof.
  induction 1 as [|r l Hr _ IH]; [reflexivity|].
  rewrite !filter_cons.
  destruct Hr as [Hr | (c & lon & lat & _ & _ & _ & Hr)]; rewrite Hr.
  - rewrite decide_False by (unfold was_assigned; simpl; discriminate).
    rewrite decide_True by reflexivity. simpl. lia.
  - rewrite decide_True by reflexivity.
    rewrite decide_False by (unfold was_skipped; simpl; discriminate).
    simpl. lia.
Qed.

(** The loop appends one row for each station, in order, and counts it
    under one of the two counters. *)
Lemma for_each_step_rows (cities : list city) (l : list station)
    (st st' : state) :
  for_each (step cities) l st = Ok st' ->
  exists new,
    rows st' = rows st ++ new /\
    src <$> new = l /\
    Forall (row_from cities) new /\
    filled st' = filled st + List.length (filter was_assigned new) /\
    no_coords st' = no_coords st + List.length (filter was_skipped new).
Proof.
  revert st. induction l as [|s l IH]; intros st; simpl.
  - intros Hst. injection Hst as <-. exists [].
    rewrite app_nil_r. simpl. repeat split; try lia. apply Forall_nil_2.
  - intros Hst. apply bind_Ok in Hst as (st1 & Hstep & Hst).
    apply IH in Hst as (new & Hrows & Hsrc & Hall & Hf & Hn).
    apply step_cases in Hstep
      as [-> | (c & lon & lat & Hc & Hlon & Hlat & ->)]; simpl in *.
    + exists (no_coords_row s :: new).
      rewrite Hrows, <- app_assoc, <- Hsrc.
      split; [reflexivity|]. split; [reflexivity|].
      split; [apply Forall_cons_2; [left; reflexivity | exact Hall]|].
      rewrite !filter_cons.
      rewrite decide_False by (unfold was_assigned; simpl; discriminate).
      rewrite decide_True by reflexivity. simpl. lia.
    + exists (assigned_row s c (distance_to lon lat c) :: new).
      rewrite Hrows, <- app_assoc, <- Hsrc.
      split; [reflexivity|]. split; [reflexivity|].
      split; [apply Forall_cons_2; [|exact Hall]|].
      { right. exists c, lon, lat. auto. }
      rewrite !filter_cons.
      rewrite decide_True by reflexivity.
      rewrite decide_False by (unfold was_skipped; simpl; discriminate).
      simpl. lia.
Qed.

(** X2.  When [main] completes, the table written has one row for each
    unique station, in the same order; [filled] counts the rows marked
    'assigned_by_nearest_city', [no_coords] those marked 'no_coords', and
    the two counters add up to the number of unique stations. *)
Theorem main_counts_every_station
    (stations : list station) (cities : list city) (st : state) :
  main stations cities = Ok st ->
  src <$> rows st = drop_duplicates stations /\
  filled st = List.length (filter was_assigned (rows st)) /\
  no_coords st = List.length (filter was_skipped (rows st)) /\
  filled st + no_coords st = List.length (drop_duplicates stations).
Proof.
  unfold main. intros Hst.
  apply for_each_step_rows in Hst as (new & Hrows & Hsrc & Hall & Hf & Hn).
  simpl in *. subst new.
  split; [exact Hsrc|]. split; [exact Hf|]. split; [exact Hn|].
  rewrite Hf, Hn, (row_from_counts _ _ Hall), <- Hsrc, length_fmap.
  reflexivity.
Qed.

(** X1.  When [main] completes, the table written has the first row of
    every station identifier and no other row, in the order of the station
    table: the stations of the output rows are a subsequence of the table,
    no identifier occurs twice, none is lost, and a row of the table is kept
    exactly when no earlier row has its identifier. *)
Theorem main_keeps_the_first_row_of_each_station
    (stations : list station) (cities : list city) (st : state) :
  main stations cities = Ok st ->
  sublist (src <$> rows st) stations /\
  NoDup (station_id <$> (src <$> rows st)) /\
  (forall i, i ∈ (station_id <$> (src <$> rows st)) <->
             i ∈ (station_id <$> stations)) /\
  (forall s, s ∈ (src <$> rows st) <->
             exists l1 l2, stations = l1 ++ s :: l2 /\
                           station_id s ∉ (station_id <$> l1)).
Proof.
  unfold main. intros Hst.
  apply for_each_step_rows in Hst as (new & Hrows & Hsrc & _).
  simpl in Hrows. subst new. rewrite Hsrc.
  split; [apply drop_duplicates_from_sublist|].
  apply drop_duplicates_first_rows.
Qed.

(** X5.  When [main] completes, every row is of one of two kinds.  Either
    it is marked 'no_coords' and its province, city and distance columns are
    as prepared before the loop (empty strings and NaN).  Or it is marked
    'assigned_by_nearest_city' and names a city of the table whose latitude
    and longitude are both present: the row has the name of that city, its
    province, the translation of the province, and the great-circle
    distance from the station's converted coordinates to the city.  A city
    without coordinates is never the nearest city. *)
Theorem assigned_rows_come_from_located_cities
    (stations : list station) (cities : list city) (st : state) (r : row) :
  main stations cities = Ok st ->
  r ∈ rows st ->
  (prov_assign_method r = py "no_coords" /\
   province_code r = VStr [] /\ province_name r = VStr [] /\
   nearest_city r = VStr [] /\ is_nan (distance_to_city_km r) = true) \/
  exists c lon lat,
    c ∈ cities /\ is_nan (Lat c) = false /\ is_nan (Long c) = false /\
    py_float (longitude (src r)) = Ok lon /\
    py_float (latitude (src r)) = Ok lat /\
    prov_assign_method r = py "assigned_by_nearest_city" /\
    nearest_city r = Name_EN c /\
    province_code r = Province c /\
    province_name r = province_cn (Province c) /\
    distance_to_city_km r = great_circle_km lon lat (Long c) (Lat c).
Proof.
  unfold main. intros Hst Hr.
  apply for_each_step_rows in Hst as (new & Hrows & _ & Hall & _).
  simpl in Hrows. subst new.
  rewrite Forall_forall in Hall.
  destruct (Hall r Hr) as [Hblank | (c & lon & lat & Hc & Hlon & Hlat & Hrow)].
  - left. rewrite Hblank. repeat split.
  - right. exists c, lon, lat.
    unfold dropna in Hc. apply list_elem_of_filter in Hc as [[HLat HLong] Hc].
    split; [exact Hc|]. split; [exact HLat|]. split; [exact HLong|].
    split; [exact Hlon|]. split; [exact Hlat|].
    rewrite Hrow. simpl. rewrite distance_to_great_circle. repeat split.
Qed.

Lemma step_raise_kinds (st : state) (s : station) (e : exn) :
  step [] st s = Raise e -> e = ValueError \/ e = OverflowError.
Proof.
  unfold step.
  destruct (read_coords_cases s) as [(lon & lat & _ & _ & ->) | [-> | ->]];
    simpl; [| discriminate |].
  - intros He. injection He as <-. left. reflexivity.
  - intros He. injection He as <-. right. reflexivity.
Qed.

Lemma step_no_city (st : state) (s : station) (lon lat : float) :
  py_float (longitude s) = Ok lon -> py_float (latitude s) = Ok lat ->
  step [] st s = Raise ValueError.
Proof.
  intros Hlon Hlat. unfold step, read_coords. rewrite Hlon, Hlat. reflexivity.
Qed.

(** X3.  With no city left after [dropna], one unique station whose
    coordinates convert is enough to make [main] fail: [np.argmin] of the
    empty array raises ValueError outside the [try] (an earlier station with
    an integer too large for a float raises OverflowError first). *)
Theorem main_fails_without_cities
    (stations : list station) (cities : list city) (s : station)
    (lon lat : float) :
  dropna cities = [] ->
  s ∈ drop_duplicates stations ->
  py_float (longitude s) = Ok lon ->
  py_float (latitude s) = Ok lat ->
  main stations cities = Raise ValueError \/
  main stations cities = Raise OverflowError.
Proof.
  intros Hnone Hs Hlon Hlat. unfold main. rewrite Hnone.
  generalize {| rows := []; filled := 0; no_coords := 0 |}.
  induction (drop_duplicates stations) as [|a l IH]; intros st.
  - apply elem_of_nil in Hs. destruct Hs.
  - simpl. destruct (step [] st a) as [st1|e] eqn:Hstep; simpl.
    + apply elem_of_cons in Hs as [-> | Hs]; [|apply IH, Hs].
      rewrite (step_no_city st a lon lat Hlon Hlat) in Hstep. discriminate.
    + apply step_raise_kinds in Hstep as [-> | ->]; auto.
Qed.

Lemma argmin_from_stops_at_nan (l1 : list float) (x : float) (l2 : list float)
    (mp : float) (mi i : nat) :
  no_nan l1 -> is_nan x = true ->
  argmin_from mp mi i (l1 ++ x :: l2) = i + List.length l1.
Proof.
  intros Hl1 Hx. revert mp mi i.
  induction l1 as [|y l1 IH]; intros mp mi i; simpl.
  - destruct (nan_unordered x mp Hx) as [_ ->]. simpl. rewrite Hx. lia.
  - assert (Hy : is_nan y = false) by (apply Hl1, list_elem_of_here).
    assert (Hl1' : no_nan l1).
    { intros z Hz. apply Hl1, list_elem_of_further, Hz. }
    destruct (mp <=? y)%float; simpl.
    + rewrite (IH Hl1'). lia.
    + rewrite Hy, (IH Hl1'). lia.
Qed.

(** The loop body stops at the first city whose distance is NaN. *)
Lemma step_stops_at_nan
    (l1 : list city) (c : city) (l2 : list city) (st : state) (s : station)
    (lon lat : float) :
  py_float (longitude s) = Ok lon ->
  py_float (latitude s) = Ok lat ->
  (forall c', c' ∈ l1 -> is_nan (distance_to lon lat c') = false) ->
  is_nan (distance_to lon lat c) = true ->
  step (l1 ++ c :: l2) st s = Ok (assigned st s c (distance_to lon lat c)).
Proof.
  intros Hlon Hlat Hl1 Hc.
  assert (Hidx : np_argmin (dists_of (l1 ++ c :: l2) lon lat)
                 = Ok (List.length l1)).
  { rewrite dists_of_fmap, fmap_app, fmap_cons.
    destruct l1 as [|c1 l1]; simpl.
    - rewrite Hc. reflexivity.
    - rewrite (Hl1 c1) by apply list_elem_of_here.
      rewrite argmin_from_stops_at_nan; [rewrite length_fmap; reflexivity | | exact Hc].
      intros x Hx. apply list_elem_of_fmap in Hx as (c' & -> & Hc').
      apply Hl1, list_elem_of_further, Hc'. }
  unfold step, read_coords, nearest. rewrite Hlon, Hlat. simpl.
  rewrite Hidx. simpl.
  rewrite dists_of_fmap, list_lookup_fmap, list_lookup_middle by reflexivity.
  reflexivity.
Qed.

(** X4.  A NaN distance counts as the minimum.  Let the two coordinates of
    a station convert with [float] and let [c] be the first city of the
    table whose great-circle distance from the station is NaN.  Then the
    loop body appends one row for the station, marked
    'assigned_by_nearest_city' and counted as filled, with the name of [c],
    its province, the translation of the province and a NaN distance,
    however near the other cities are. *)
Theorem first_nan_distance_wins
    (l1 : list city) (c : city) (l2 : list city) (st : state) (s : station)
    (lon lat : float) :
  py_float (longitude s) = Ok lon ->
  py_float (latitude s) = Ok lat ->
  (forall c', c' ∈ l1 ->
     is_nan (great_circle_km lon lat (Long c') (Lat c')) = false) ->
  is_nan (great_circle_km lon lat (Long c) (Lat c)) = true ->
  exists st' r,
    step (l1 ++ c :: l2) st s = Ok st' /\
    rows st' = rows st ++ [r] /\
    filled st' = S (filled st) /\
    no_coords st' = no_coords st /\
    src r = s /\
    prov_assign_method r = py "assigned_by_nearest_city" /\
    nearest_city r = Name_EN c /\
    province_code r = Province c /\
    province_name r = province_cn (Province c) /\
    is_nan (distance_to_city_km r) = true.
Proof.
  intros Hlon Hlat Hl1 Hc.
  exists (assigned st s c (distance_to lon lat c)),
    (assigned_row s c (distance_to lon lat c)).
  split.
  { apply step_stops_at_nan; [exact Hlon | exact Hlat | |].
    - intros c' Hc'. rewrite distance_to_great_circle. apply Hl1, Hc'.
    - rewrite distance_to_great_circle. exact Hc. }
  simpl. rewrite distance_to_great_circle. repeat split. exact Hc.
Qed.

End AssignmentRun.

(** ** The index and the graph of the network builder *)

Section NetworkRun.

Import BuildNetwork.
Local Open Scope nat_scope.
Context `{PyLib}.

Lemma sub_spaces_chars (b : bool) (s : pystr) (c : N) :
  c ∈ sub_spaces b s -> c = 32%N \/ (c ∈ s /\ is_space c = false).
Proof.
  revert b. induction s as [|a s IH]; intros b; simpl.
  - intros Hc. apply elem_of_nil in Hc. destruct Hc.
  - destruct (is_space a) eqn:Ha.
    + destruct b.
      * intros Hc. destruct (IH _ Hc) as [-> | [Hin Hsp]]; [left; reflexivity|].
        right. split; [apply list_elem_of_further, Hin | exact Hsp].
      * intros Hc. apply elem_of_cons in Hc as [-> | Hc]; [left; reflexivity|].
        destruct (IH _ Hc) as [-> | [Hin Hsp]]; [left; reflexivity|].
        right. split; [apply list_elem_of_further, Hin | exact Hsp].
    + intros Hc. apply elem_of_cons in Hc as [-> | Hc].
      * right. split; [apply list_elem_of_here | exact Ha].
      * destruct (IH _ Hc) as [-> | [Hin Hsp]]; [left; reflexivity|].
        right. split; [apply list_elem_of_further, Hin | exact Hsp].
Qed.

(** X6.  For a name that is present, [normalize_name] lower-cases a string
    that holds none of the punctuation characters of the pattern and no
    whitespace character other than the plain space. *)
Theorem normalize_name_lowers_a_clean_string (name : value) :
  pd_isna name = false ->
  exists s,
    normalize_name name = str_lower s /\
    forall c, c ∈ s ->
      is_punctuation c = false /\ (is_space c = true -> c = 32%N).
Proof.
  intros Hname. unfold normalize_name. rewrite Hname.
  eexists. split; [reflexivity|].
  intros c Hc. unfold sub_punctuation in Hc.
  apply list_elem_of_In, List.filter_In in Hc as [Hin Hp].
  apply negb_true_iff in Hp. split; [exact Hp|].
  apply list_elem_of_In, sub_spaces_chars in Hin as [-> | [_ Hsp]];
    [reflexivity | congruence].
Qed.

(** The last station with a given key, if there is one. *)
Lemma last_with_key (k : pystr) (l : list station) :
  (forall s, s ∈ l -> key_of s <> k) \/
  exists l1 s l2, l = l1 ++ s :: l2 /\ key_of s = k /\
                  forall s', s' ∈ l2 -> key_of s' <> k.
Proof.
  induction l as [|a l IH].
  - left. intros s Hs. apply elem_of_nil in Hs. destruct Hs.
  - destruct IH as [Hnone | (l1 & s & l2 & -> & Hs & Hl2)].
    + destruct (decide (key_of a = k)) as [Ha | Ha].
      * right. exists [], a, l. auto.
      * left. intros s Hs. apply elem_of_cons in Hs as [-> | Hs]; auto.
    + right. exists (a :: l1), s, l2. auto.
Qed.

(** X7.  A key is looked up to the identifier of the last station row that
    carries it, and to nothing exactly when no station row carries it. *)
Theorem name_to_id_is_last_row (stations : list station) (k : pystr) :
  (forall i, name_to_id stations !! k = Some i <->
     exists l1 s l2, stations = l1 ++ s :: l2 /\ key_of s = k /\
                     station_id s = i /\
                     forall s', s' ∈ l2 -> key_of s' <> k) /\
  (name_to_id stations !! k = None <->
     forall s, s ∈ stations -> key_of s <> k).
Proof.
  split.
  - intros i. split.
    + intros Hi. destruct (last_with_key k stations)
        as [Hnone | (l1 & s & l2 & -> & Hs & Hl2)].
      * rewrite name_to_id_absent in Hi by exact Hnone. discriminate.
      * exists l1, s, l2. repeat split; try assumption.
        subst k. rewrite name_to_id_last in Hi by exact Hl2. congruence.
    + intros (l1 & s & l2 & -> & <- & <- & Hl2). apply name_to_id_last, Hl2.
  - split; [|apply name_to_id_absent].
    intros Hnone. destruct (last_with_key k stations)
      as [Hall | (l1 & s & l2 & -> & Hs & Hl2)]; [exact Hall|].
    subst k. rewrite name_to_id_last in Hnone by exact Hl2. discriminate.
Qed.

Lemma name_to_id_value (stations : list station) (k : pystr) (i : ident) :
  name_to_id stations !! k = Some i -> i ∈ ids_of stations.
Proof.
  intros Hi. destruct (last_with_key k stations)
    as [Hnone | (l1 & s & l2 & -> & Hs & Hl2)].
  - rewrite name_to_id_absent in Hi by exact Hnone. discriminate.
  - subst k. rewrite name_to_id_last in Hi by exact Hl2. injection Hi as <-.
    unfold ids_of. apply elem_of_list_to_set, list_elem_of_fmap.
    exists s. split; [reflexivity|]. apply elem_of_app. right.
    apply list_elem_of_here.
Qed.

Lemma add_nodes_fold (l : list station) (g : graph) :
  edges (add_nodes l g) = edges g /\
  dom (nodes (add_nodes l g)) = ids_of l ∪ dom (nodes g) /\
  forall n, n ∉ ids_of l -> nodes (add_nodes l g) !! n = nodes g !! n.
Proof.
  unfold add_nodes, ids_of. revert g.
  induction l as [|s l IH]; intros g; simpl.
  - split; [reflexivity|]. split; [rewrite (left_id_L ∅ (∪)); reflexivity|].
    reflexivity.
  - destruct (IH (add_node g (station_id s)
                   {| n_name := station_name s; n_province := province s;
                      n_latitude := latitude s; n_longitude := longitude s |}))
      as (He & Hd & Hn).
    split; [rewrite He; reflexivity|]. split.
    + rewrite Hd. simpl. rewrite dom_insert_L.
      rewrite (assoc_L (∪)), (comm_L (∪) (list_to_set _)). reflexivity.
    + intros n Hnot. apply not_elem_of_union in Hnot as [Hns Hnl].
      rewrite Hn by exact Hnl. simpl.
      apply lookup_insert_ne. intros Heq. apply Hns, elem_of_singleton.
      congruence.
Qed.

(** X8.  The nodes of the graph are the station identifiers; no edge has
    been added yet; and the attributes of a node are those of the last
    station row with its identifier. *)
Theorem add_nodes_keeps_last_row (stations : list station) :
  edges (add_nodes stations empty_graph) = [] /\
  dom (nodes (add_nodes stations empty_graph)) = ids_of stations /\
  forall l1 s l2,
    stations = l1 ++ s :: l2 ->
    (forall s', s' ∈ l2 -> station_id s' <> station_id s) ->
    nodes (add_nodes stations empty_graph) !! station_id s
    = Some (Some (node_attrs_of s)).
Proof.
  destruct (add_nodes_fold stations empty_graph) as (He & Hd & _).
  split; [exact He|]. split.
  - rewrite Hd. simpl. rewrite dom_empty_L. apply (right_id_L ∅ (∪)).
  - intros l1 s l2 -> Hl2.
    unfold add_nodes. rewrite fold_left_app. simpl.
    fold (add_nodes l1 empty_graph).
    match goal with
    | |- nodes (fold_left ?f l2 ?g) !! _ = _ =>
        change (fold_left f l2 g) with (add_nodes l2 g)
    end.
    destruct (add_nodes_fold l2
                (add_node (add_nodes l1 empty_graph) (station_id s)
                   (node_attrs_of s))) as (_ & _ & Hn).
    unfold node_attrs_of in *. rewrite Hn.
    + simpl. apply lookup_insert_eq.
    + unfold ids_of. intros Hin.
      apply elem_of_list_to_set, list_elem_of_fmap in Hin as (s' & Heq & Hs').
      apply (Hl2 s' Hs'). congruence.
Qed.

Lemma add_track_cases (index : gmap pystr ident) (st st' : state)
    (row : track) :
  add_track index st row = Ok st' ->
  (resolvable index row = false /\ st' = skipped index st row) \/
  (resolvable index row = true /\
   exists u v a,
     start_id index row = Some u /\ end_id index row = Some v /\
     truthy u = true /\ truthy v = true /\
     edge_attrs_of row = Ok a /\
     st' = {| G := add_edge (G st) u v a;
              edges_added := S (edges_added st);
              missing_stations := missing_stations st |}).
Proof.
  unfold resolvable.
  destruct (truthy_opt (start_id index row) && truthy_opt (end_id index row))
    eqn:Hb.
  - apply andb_prop in Hb as [Hs He].
    destruct (start_id index row) as [u|] eqn:Hsu; [|discriminate].
    destruct (end_id index row) as [v|] eqn:Hev; [|discriminate].
    rewrite (add_track_adds _ _ _ u v) by assumption.
    intros Hr. apply bind_Ok in Hr as (a & Ha & Hr). injection Hr as <-.
    right. split; [reflexivity|]. exists u, v, a. auto 10.
  - rewrite add_track_skips by exact Hb. intros Hr. injection Hr as <-.
    left. auto.
Qed.

(** What the edge loop appends: one edge for each resolvable record, in
    order, and the labels of the others. *)
Lemma for_each_add_track_appends (index : gmap pystr ident) (l : list track)
    (st st' : state) :
  for_each (add_track index) l st = Ok st' ->
  exists new,
    edges (G st') = edges (G st) ++ new /\
    Forall2 (edge_of_record index) new (List.filter (resolvable index) l) /\
    Forall (fun e => truthy (source e) = true /\ truthy (target e) = true) new /\
    edges_added st' = edges_added st + List.length new /\
    missing_stations st'
    = missing_stations st ++ flat_map (unresolved_labels index) l.
Proof.
  revert st. induction l as [|row l IH]; intros st; simpl.
  - intros Hr. injection Hr as <-. exists [].
    rewrite !app_nil_r. simpl. repeat split; try lia.
    + apply Forall2_nil_2.
    + apply Forall_nil_2.
  - intros Hr. apply bind_Ok in Hr as (st1 & Hstep & Hr).
    apply IH in Hr as (new & He & Hrec & Htr & Hn & Hm).
    apply add_track_cases in Hstep
      as [[Hres ->] | (Hres & u & v & a & Hu & Hv & Htu & Htv & Ha & ->)];
      unfold unresolved_labels at 1; rewrite Hres; simpl in *.
    + exists new. rewrite Hm, <- !app_assoc. auto.
    + exists ({| source := u; target := v;
                 key := new_edge_key (G st) u v; attrs := a |} :: new).
      rewrite He, <- app_assoc. simpl.
      split; [reflexivity|]. split; [|split; [|split; [lia | exact Hm]]].
      * apply Forall2_cons_2; [|exact Hrec]. repeat split; assumption.
      * apply Forall_cons_2; [split; assumption | exact Htr].
Qed.

Lemma keys_count_snoc (es : list edge) (u v : ident) (a : edge_attrs) :
  keys_count_parallel_edges es ->
  keys_count_parallel_edges
    (es ++ [ {| source := u; target := v;
                key := List.length (List.filter (joins u v) es);
                attrs := a |} ]).
Proof.
  intros Hes i e Hi. apply lookup_app_Some in Hi as [Hi | [Hge Hi]].
  - rewrite take_app_le by (apply lookup_lt_Some in Hi; lia).
    apply Hes, Hi.
  - apply list_lookup_singleton_Some in Hi as [Hi <-]. simpl.
    replace i with (List.length es) by lia.
    rewrite take_app_length. reflexivity.
Qed.

Lemma for_each_add_track_keys (index : gmap pystr ident) (l : list track)
    (st st' : state) :
  for_each (add_track index) l st = Ok st' ->
  keys_count_parallel_edges (edges (G st)) ->
  keys_count_parallel_edges (edges (G st')).
Proof.
  revert st. induction l as [|row l IH]; intros st; simpl.
  - intros Hr. injection Hr as <-. auto.
  - intros Hr Hk. apply bind_Ok in Hr as (st1 & Hstep & Hr).
    apply (IH _ Hr).
    apply add_track_cases in Hstep
      as [[_ ->] | (_ & u & v & a & _ & _ & _ & _ & _ & ->)]; simpl.
    + exact Hk.
    + apply keys_count_snoc, Hk.
Qed.

Lemma filter_take_lt (P : edge -> bool) (es : list edge) (i j : nat)
    (e : edge) :
  es !! i = Some e -> P e = true -> i < j ->
  List.length (List.filter P (take i es))
  < List.length (List.filter P (take j es)).
Proof.
  revert i j. induction es as [|a es IH]; intros [|i] [|j] Hi HP Hij;
    simpl in *; try discriminate; try lia.
  - injection Hi as ->. rewrite HP. simpl. lia.
  - specialize (IH i j Hi HP). destruct (P a); simpl; lia.
Qed.

Lemma keys_count_distinct (es : list edge) (i j : nat) (e1 e2 : edge) :
  keys_count_parallel_edges es ->
  es !! i = Some e1 -> es !! j = Some e2 -> i <> j ->
  source e1 = source e2 -> target e1 = target e2 ->
  key e1 <> key e2.
Proof.
  intros Hes H1 H2 Hij Hs Ht.
  rewrite (Hes _ _ H1), (Hes _ _ H2), <- Hs, <- Ht.
  assert (HP1 : joins (source e1) (target e1) e1 = true).
  { apply bool_decide_eq_true_2. auto. }
  assert (HP2 : joins (source e1) (target e1) e2 = true).
  { apply bool_decide_eq_true_2. auto. }
  destruct (Nat.lt_total i j) as [Hlt | [Heq | Hgt]]; [| congruence |].
  - pose proof (filter_take_lt _ es i j e1 H1 HP1 Hlt). lia.
  - pose proof (filter_take_lt _ es j i e2 H2 HP2 Hgt). lia.
Qed.

Lemma touch_node_known (n : ident) (m : gmap ident (option node_attrs)) :
  n ∈ dom m -> touch n m = m.
Proof.
  intros Hn. apply elem_of_dom in Hn as [x Hx]. unfold touch. now rewrite Hx.
Qed.

Lemma for_each_add_track_nodes (index : gmap pystr ident) (l : list track)
    (st st' : state) :
  (forall k i, index !! k = Some i -> i ∈ dom (nodes (G st))) ->
  for_each (add_track index) l st = Ok st' ->
  nodes (G st') = nodes (G st).
Proof.
  revert st. induction l as [|row l IH]; intros st Hidx; simpl.
  - intros Hr. injection Hr as <-. reflexivity.
  - intros Hr. apply bind_Ok in Hr as (st1 & Hstep & Hr).
    assert (Hn : nodes (G st1) = nodes (G st)).
    { apply add_track_cases in Hstep
        as [[_ ->] | (_ & u & v & a & Hu & Hv & _ & _ & _ & ->)]; simpl;
        [reflexivity|].
      rewrite (touch_node_known u), (touch_node_known v); eauto. }
    rewrite <- Hn. apply IH; [|exact Hr].
    rewrite Hn. exact Hidx.
Qed.

Lemma build_graph_appends (stations : list station) (tracks : list track)
    (st : state) :
  build_graph stations tracks = Ok st ->
  Forall2 (edge_of_record (name_to_id stations)) (edges (G st))
    (List.filter (resolvable (name_to_id stations)) tracks) /\
  Forall (fun e => truthy (source e) = true /\ truthy (target e) = true)
    (edges (G st)) /\
  edges_added st = List.length (edges (G st)) /\
  missing_stations st
  = flat_map (unresolved_labels (name_to_id stations)) tracks.
Proof.
  unfold build_graph. intros Hst.
  apply for_each_add_track_appends in Hst as (new & He & Hrec & Htr & Hn & Hm).
  simpl in *.
  destruct (add_nodes_fold stations empty_graph) as (He0 & _).
  rewrite He0 in He. simpl in He. subst new. auto.
Qed.

Lemma build_graph_nodes (stations : list station) (tracks : list track)
    (st : state) :
  build_graph stations tracks = Ok st ->
  nodes (G st) = nodes (add_nodes stations empty_graph).
Proof.
  unfold build_graph. intros Hst.
  apply for_each_add_track_nodes in Hst; [exact Hst|].
  simpl. intros k i Hi.
  destruct (add_nodes_fold stations empty_graph) as (_ & Hd & _).
  rewrite Hd. apply elem_of_union. left. eapply name_to_id_value, Hi.
Qed.

Lemma edge_attrs_of_carries (e : edge) (row : track) :
  edge_attrs_of row = Ok (attrs e) -> carries e row.
Proof.
  unfold edge_attrs_of, carries. intros Ha.
  apply bind_Ok in Ha as (y & Hy & Ha). injection Ha as Ha.
  rewrite <- Ha. simpl.
  split; [reflexivity|]. split; [reflexivity|].
  split; [|split; reflexivity].
  unfold year_int, pd_notna in Hy.
  destruct (pd_isna (year row)); simpl in Hy.
  - injection Hy as <-. left. auto.
  - apply bind_Ok in Hy as (z & Hz & Hy). injection Hy as <-.
    right. split; [reflexivity|]. eauto.
Qed.

(** The edges from [u] to [v] follow the records from [u] to [v]. *)
Lemma edges_of_pair (index : gmap pystr ident) (u v : ident)
    (es : list edge) (recs : list track) :
  Forall2 (edge_of_record index) es recs ->
  Forall (fun e => truthy (source e) = true /\ truthy (target e) = true) es ->
  Forall2 carries (List.filter (joins u v) es) (records_between index u v recs).
Proof.
  unfold records_between.
  induction 1 as [|e row es recs (Hu & Hv & Ha) _ IH]; intros Htr; simpl.
  - apply Forall2_nil_2.
  - apply Forall_cons in Htr as [[Htu Htv] Htr].
    assert (Hsame : joins u v e
                    = resolvable index row
                      && bool_decide (start_id index row = Some u /\
                                      end_id index row = Some v)).
    { unfold resolvable, joins. rewrite Hu, Hv. simpl. rewrite Htu, Htv. simpl.
      apply bool_decide_ext. split.
      - intros [-> ->]. auto.
      - intros [Hs Ht]. injection Hs as ->. injection Ht as ->. auto. }
    rewrite <- Hsame. destruct (joins u v e); [|apply IH, Htr].
    apply Forall2_cons_2; [apply edge_attrs_of_carries, Ha | apply IH, Htr].
Qed.

Lemma records_between_resolvable (index : gmap pystr ident) (u v : ident)
    (tracks : list track) :
  records_between index u v (List.filter (resolvable index) tracks)
  = records_between index u v tracks.
Proof.
  unfold records_between.
  induction tracks as [|row tracks IH]; simpl; [reflexivity|].
  destruct (resolvable index row) eqn:Hres; simpl; rewrite ?Hres; simpl.
  - rewrite IH. reflexivity.
  - exact IH.
Qed.

Lemma keys_count_prefix (es : list edge) (e : edge) :
  keys_count_parallel_edges (es ++ [e]) ->
  keys_count_parallel_edges es /\
  key e = List.length (List.filter (joins (source e) (target e)) es).
Proof.
  intros Hes. split.
  - intros i e' Hi. pose proof (lookup_lt_Some _ _ _ Hi) as Hlt.
    rewrite <- (take_app_le es [e] i) by lia.
    apply Hes. rewrite lookup_app_l by exact Hlt. exact Hi.
  - pose proof (Hes (List.length es) e) as Hkey.
    rewrite take_app_length in Hkey. apply Hkey.
    rewrite lookup_app_r by lia.
    replace (List.length es - List.length es)%nat with 0%nat by lia.
    reflexivity.
Qed.

(** The keys of the edges from [u] to [v] are 0, 1, 2, ... in their
    order. *)
Lemma keys_of_pair (es : list edge) (u v : ident) :
  keys_count_parallel_edges es ->
  key <$> List.filter (joins u v) es
  = seq 0 (List.length (List.filter (joins u v) es)).
Proof.
  induction es as [|e es IH] using rev_ind; intros Hes; [reflexivity|].
  apply keys_count_prefix in Hes as [Hes Hkey].
  rewrite List.filter_app, fmap_app, length_app, seq_app, (IH Hes). simpl.
  destruct (joins u v e) eqn:Hj; simpl; [|reflexivity].
  apply bool_decide_eq_true_1 in Hj as [Hu Hv].
  rewrite Hkey, Hu, Hv. reflexivity.
Qed.

Lemma build_graph_keys (stations : list station) (tracks : list track)
    (st : state) :
  build_graph stations tracks = Ok st ->
  keys_count_parallel_edges (edges (G st)).
Proof.
  unfold build_graph. intros Hst.
  apply (for_each_add_track_keys _ _ _ _ Hst). simpl.
  destruct (add_nodes_fold stations empty_graph) as (-> & _).
  intros i e Hi. simpl in Hi. discriminate.
Qed.

(** When the build completes, the edges from [u] to [v] are, in the order
    of their keys 0, 1, 2, ..., the records from [u] to [v]. *)
Lemma build_graph_pairs (stations : list station) (tracks : list track)
    (st : state) (u v : ident) :
  build_graph stations tracks = Ok st ->
  Forall2 carries (edges_between (G st) u v)
    (records_between (name_to_id stations) u v tracks) /\
  key <$> edges_between (G st) u v
  = seq 0 (List.length (records_between (name_to_id stations) u v tracks)).
Proof.
  intros Hst.
  pose proof (build_graph_keys _ _ _ Hst) as Hk.
  apply build_graph_appends in Hst as (Hrec & Htr & _).
  assert (Hpair : Forall2 carries (edges_between (G st) u v)
                    (records_between (name_to_id stations) u v tracks)).
  { rewrite <- records_between_resolvable.
    apply edges_of_pair; assumption. }
  split; [exact Hpair|].
  unfold edges_between in *.
  rewrite (keys_of_pair _ u v Hk). f_equal. eapply Forall2_length, Hpair.
Qed.

(** X9.  When the build completes, the parallel edges from a node [u] to a
    node [v] are, one for one and in the order of their keys 0, 1, 2, ...,
    the records of the track table, in its order, whose start label
    resolves to [u] and whose end label resolves to [v], both identifiers
    truthy: each edge carries the length, the year and the standardized
    type read from its record.  [edges_added] is the number of edges of the
    graph, which is the number of records whose two labels resolve to truthy
    identifiers. *)
Theorem edges_follow_the_resolvable_records
    (stations : list station) (tracks : list track) (st : state) :
  build_graph stations tracks = Ok st ->
  (forall u v,
     Forall2 carries (edges_between (G st) u v)
       (records_between (name_to_id stations) u v tracks) /\
     key <$> edges_between (G st) u v
     = seq 0 (List.length
                (records_between (name_to_id stations) u v tracks))) /\
  edges_added st = List.length (edges (G st)) /\
  edges_added st
  = List.length (List.filter (resolvable (name_to_id stations)) tracks).
Proof.
  intros Hst. split; [intros u v; apply build_graph_pairs, Hst|].
  apply build_graph_appends in Hst as (Hrec & _ & Hn & _).
  split; [exact Hn|].
  rewrite Hn. eapply Forall2_length, Hrec.
Qed.

(** X10.  When the build completes, the node dictionary is still the one
    filled from the station table: the edge loop creates no node, and every
    edge joins two truthy station identifiers. *)
Theorem edges_join_stations_of_the_table
    (stations : list station) (tracks : list track) (st : state) :
  build_graph stations tracks = Ok st ->
  nodes (G st) = nodes (add_nodes stations empty_graph) /\
  dom (nodes (G st)) = ids_of stations /\
  forall e, e ∈ edges (G st) ->
    truthy (source e) = true /\ truthy (target e) = true /\
    source e ∈ ids_of stations /\ target e ∈ ids_of stations.
Proof.
  intros Hst. pose proof (build_graph_nodes _ _ _ Hst) as Hnodes.
  pose proof (build_graph_appends _ _ _ Hst) as (Hrec & Htr & _).
  split; [exact Hnodes|]. split.
  - rewrite Hnodes.
    destruct (add_nodes_fold stations empty_graph) as (_ & Hd & _).
    rewrite Hd. simpl. rewrite dom_empty_L. apply (right_id_L ∅ (∪)).
  - intros e He. rewrite Forall_forall in Htr.
    destruct (Htr e He) as [Hs Ht]. split; [exact Hs|]. split; [exact Ht|].
    apply list_elem_of_lookup in He as [i Hi].
    destruct (Forall2_lookup_l _ _ _ _ _ Hrec Hi) as (row & _ & Hu & Hv & _).
    split; eapply name_to_id_value; [exact Hu | exact Hv].
Qed.

(** X11.  When the build completes, the key of every edge is the number of
    earlier edges with the same source and target, so two different edges
    between the same ordered pair never share a key. *)
Theorem keys_number_the_parallel_edges
    (stations : list station) (tracks : list track) (st : state) :
  build_graph stations tracks = Ok st ->
  keys_count_parallel_edges (edges (G st)) /\
  forall i j e1 e2,
    edges (G st) !! i = Some e1 -> edges (G st) !! j = Some e2 -> i <> j ->
    source e1 = source e2 -> target e1 = target e2 ->
    key e1 <> key e2.
Proof.
  intros Hst.
  assert (Hk : keys_count_parallel_edges (edges (G st))).
  { unfold build_graph in Hst.
    apply (for_each_add_track_keys _ _ _ _ Hst). simpl.
    destruct (add_nodes_fold stations empty_graph) as (-> & _).
    intros i e Hi. simpl in Hi. discriminate. }
  split; [exact Hk|].
  intros i j e1 e2. apply keys_count_distinct, Hk.
Qed.

Lemma unresolved_labels_elem (index : gmap pystr ident) (row : track)
    (label : value) :
  label ∈ unresolved_labels index row <->
  (label = start_station row /\ truthy_opt (start_id index row) = false) \/
  (label = end_station row /\ truthy_opt (end_id index row) = false).
Proof.
  unfold unresolved_labels, resolvable.
  destruct (truthy_opt (start_id index row));
    destruct (truthy_opt (end_id index row)); simpl;
    rewrite ?elem_of_cons, ?elem_of_nil; intuition congruence.
Qed.

(** X12.  When the build completes, [missing_stations] holds, in the order
    of the track table and with repetitions, the labels that are
    unresolved or resolve to a falsy identifier: a label is reported
    exactly when it is such an endpoint of some record. *)
Theorem missing_stations_are_the_unresolved_labels
    (stations : list station) (tracks : list track) (st : state) :
  build_graph stations tracks = Ok st ->
  missing_stations st
  = flat_map (unresolved_labels (name_to_id stations)) tracks /\
  forall label,
    label ∈ missing_stations st <->
    exists row, row ∈ tracks /\
      ((label = start_station row /\
        truthy_opt (start_id (name_to_id stations) row) = false) \/
       (label = end_station row /\
        truthy_opt (end_id (name_to_id stations) row) = false)).
Proof.
  intros Hst. apply build_graph_appends in Hst as (_ & _ & _ & Hm).
  split; [exact Hm|]. intros label. rewrite Hm.
  rewrite list_elem_of_In, in_flat_map. split.
  - intros (row & Hrow & Hl). exists row.
    split; [apply list_elem_of_In, Hrow|].
    apply unresolved_labels_elem, list_elem_of_In, Hl.
  - intros (row & Hrow & Hl). exists row.
    split; [apply list_elem_of_In, Hrow|].
    apply list_elem_of_In, unresolved_labels_elem, Hl.
Qed.

(** X14.  When the build completes, the year of every edge is read from its
    own record and from nothing else.  The record of an edge with key [k]
    from [u] to [v] is the one numbered [k] (from 0) among the records of
    the track table whose labels resolve to the truthy identifiers [u] and
    [v]; the edge has the year cell of that record as [year_raw], and its
    year is [None] exactly when that cell is missing, and otherwise [int] of
    that cell. *)
Theorem edge_years_are_never_inferred
    (stations : list station) (tracks : list track) (st : state) (e : edge) :
  build_graph stations tracks = Ok st ->
  e ∈ edges (G st) ->
  exists row,
    records_between (name_to_id stations) (source e) (target e) tracks
      !! key e = Some row /\
    e_year_raw (attrs e) = year row /\
    ((pd_isna (year row) = true /\ e_year (attrs e) = None) \/
     (pd_isna (year row) = false /\
      exists y, e_year (attrs e) = Some y /\ py_int (year row) = Ok y)).
Proof.
  intros Hst He.
  destruct (build_graph_pairs _ _ _ (source e) (target e) Hst)
    as [Hpair Hkeys].
  assert (Hin : e ∈ edges_between (G st) (source e) (target e)).
  { unfold edges_between. apply list_elem_of_In, List.filter_In.
    split; [apply list_elem_of_In, He|].
    apply bool_decide_eq_true_2. auto. }
  apply list_elem_of_lookup in Hin as [i Hi].
  assert (Hkey : key e = i).
  { assert (Hk : (key <$> edges_between (G st) (source e) (target e)) !! i
                 = Some (key e))
      by (rewrite list_lookup_fmap, Hi; reflexivity).
    rewrite Hkeys in Hk. apply lookup_seq in Hk as [-> _]. reflexivity. }
  destruct (Forall2_lookup_l _ _ _ _ _ Hpair Hi)
    as (row & Hrow & _ & Hraw & Hyear & _).
  exists row. rewrite Hkey. auto.
Qed.

(** X13.  Standardizing a type twice is standardizing it once, and no
    standardized type is 'rail pass'. *)
Theorem type_standardized_is_stable (t : value) :
  type_standardized (type_standardized t) = type_standardized t /\
  type_standardized t <> VStr (py "rail pass").
Proof.
  destruct t as [|z|f|s]; try (split; [reflexivity | discriminate]).
  change (type_standardized (VStr s))
    with (match (list_to_map type_mapping : gmap pystr pystr) !! s with
          | Some t' => VStr t'
          | None => VStr s
          end).
  destruct ((list_to_map type_mapping : gmap pystr pystr) !! s) as [t'|] eqn:Hs.
  - apply elem_of_list_to_map_2 in Hs. unfold type_mapping in Hs.
    repeat (apply elem_of_cons in Hs as [Hs | Hs];
            [injection Hs as _ ->;
             split; [vm_compute; reflexivity
                    | intros Hq; vm_compute in Hq; discriminate]|]).
    apply elem_of_nil in Hs. destruct Hs.
  - split.
    + unfold type_standardized. rewrite Hs. reflexivity.
    + intros Heq. injection Heq as ->. vm_compute in Hs. discriminate.
Qed.





Lemma count_rail_edges_bounds (g : graph) (es : list edge)
    (acc c : rail_count) :
  count_rail_edges g es acc = Done c ->
  exists total shown,
    rail_edges_total c = rail_edges_total acc + total /\
    edges_for_map c = edges_for_map acc + shown /\
    shown <= total <= List.length es.
Proof.
  revert acc. induction es as [|e es IH]; intros acc; simpl.
  - intros Hc. injection Hc as <-. exists 0, 0. lia.
  - destruct (count_rail_edge g acc e) as [acc'|x] eqn:He; [|discriminate].
    intros Hc. apply IH in Hc as (total & shown & Ht & Hs & Hb).
    unfold count_rail_edge in He.
    destruct (is_rail (e_type (attrs e))) as [[|]|]; try discriminate.
    + destruct (located g (source e)) as [a|]; [|discriminate].
      destruct (located g (target e)) as [b|]; [|discriminate].
      injection He as <-. simpl in *.
      destruct (a && b).
      * exists (S total), (S shown). lia.
      * exists (S total), shown. lia.
    + injection He as <-. exists total, shown. lia.
Qed.

(** X16.  When the rail filter completes, the edges kept for the map are
    among the rail edges counted, and these among the edges of the graph. *)
Theorem rail_counts_are_ordered (g : graph) (c : rail_count) :
  rail_edges g = Done c ->
  edges_for_map c <= rail_edges_total c <= List.length (edges g).
Proof.
  unfold rail_edges. intros Hc.
  apply count_rail_edges_bounds in Hc as (total & shown & -> & -> & Hb).
  simpl. lia.
Qed.

End NetworkRun.

(** ** The analysis script: year selection, simple graph, map lines *)

Section AnalysisRun.

Import BuildAndPlot.
Local Open Scope nat_scope.

Lemma fold_max_year (l : list (option Z)) (acc : option Z) :
  match fold_left max_year l acc with
  | None => acc = None /\ forall c, c ∈ l -> c = None
  | Some y =>
      (acc = Some y \/ Some y ∈ l) /\
      (forall a, acc = Some a -> (a <= y)%Z) /\
      (forall c, Some c ∈ l -> (c <= y)%Z)
  end.
Proof.
  revert acc. induction l as [|c l IH]; intros acc; simpl.
  - destruct acc as [a|].
    + split; [left; reflexivity|]. split.
      * intros a' Ha. injection Ha as <-. lia.
      * intros c Hc. apply elem_of_nil in Hc. destruct Hc.
    + split; [reflexivity|]. intros c Hc. apply elem_of_nil in Hc. destruct Hc.
  - specialize (IH (max_year acc c)).
    destruct (fold_left max_year l (max_year acc c)) as [y|].
    + destruct IH as (Hatt & Hacc & Hl). split; [|split].
      * destruct Hatt as [Hatt | Hatt].
        -- destruct acc as [a|], c as [b|]; simpl in Hatt.
           ++ injection Hatt as <-.
              destruct (Z.max_spec a b) as [[_ ->] | [_ ->]].
              ** right. apply list_elem_of_here.
              ** left. reflexivity.
           ++ left. exact Hatt.
           ++ right. rewrite Hatt. apply list_elem_of_here.
           ++ discriminate.
        -- right. apply list_elem_of_further, Hatt.
      * intros a Ha. subst acc. destruct c as [b|]; simpl in Hacc.
        -- specialize (Hacc _ eq_refl). lia.
        -- apply Hacc. reflexivity.
      * intros b Hb. apply elem_of_cons in Hb as [Hb | Hb]; [|apply Hl, Hb].
        subst c. destruct acc as [a|]; simpl in Hacc.
        -- specialize (Hacc _ eq_refl). lia.
        -- apply Hacc. reflexivity.
    + destruct IH as [Hm Hl].
      destruct acc as [a|], c as [b|]; simpl in Hm; try discriminate.
      split; [reflexivity|]. intros c Hc.
      apply elem_of_cons in Hc as [-> | Hc]; [reflexivity | apply Hl, Hc].
Qed.

Lemma in_year_true {A : Type} (year : option Z) (r : option Z * A) :
  in_year year r = true <-> fst r = year /\ year <> None.
Proof.
  unfold in_year. destruct year as [y|], (fst r) as [c|]; split;
    try discriminate; try (intros [? ?]; congruence).
  - intros Hc. apply Z.eqb_eq in Hc. subst. split; [reflexivity | discriminate].
  - intros [Hc _]. injection Hc as ->. apply Z.eqb_refl.
Qed.

(** X17.  Called without a year, [load_and_process_data] selects the latest
    year of the station table: it is at least every station year and the
    stations returned, those of that year, are not empty when some station
    has a year; the edges returned are those of the same year, whatever
    later years the edge table holds. *)
Theorem latest_station_year_is_selected
    (stations : list (option Z * station))
    (edge_rows : list (option Z * edge_row)) :
  let result := load_and_process_data stations edge_rows None in
  let year := result.2 in
  (forall y0 s, (Some y0, s) ∈ stations ->
     exists y s', year = Some y /\ (y0 <= y)%Z /\ (Some y, s') ∈ result.1.1) /\
  (forall r, r ∈ result.1.1 <-> r ∈ stations /\ fst r = year /\ year <> None) /\
  (forall r, r ∈ result.1.2 <-> r ∈ edge_rows /\ fst r = year /\ year <> None).
Proof.
  simpl. split; [|split].
  - intros y0 s Hs. unfold latest_year.
    pose proof (fold_max_year (fst <$> stations) None) as Hmax.
    assert (Hy0 : Some y0 ∈ fst <$> stations).
    { apply list_elem_of_fmap. exists (Some y0, s). auto. }
    destruct (fold_left max_year (fst <$> stations) None) as [y|].
    + destruct Hmax as ([Hatt | Hatt] & _ & Hle); [discriminate|].
      apply list_elem_of_fmap in Hatt as ([c s'] & Hc & Hs'). simpl in Hc.
      subst c. exists y, s'. split; [reflexivity|]. split; [apply Hle, Hy0|].
      apply list_elem_of_In, List.filter_In. split; [apply list_elem_of_In, Hs'|].
      apply in_year_true. split; [reflexivity | discriminate].
    + destruct Hmax as [_ Hnone]. specialize (Hnone _ Hy0). discriminate.
  - intros r. rewrite list_elem_of_In, List.filter_In, in_year_true.
    rewrite <- list_elem_of_In. reflexivity.
  - intros r. rewrite list_elem_of_In, List.filter_In, in_year_true.
    rewrite <- list_elem_of_In. reflexivity.
Qed.

Lemma joins_sym (u v : ident) (e : edge) :
  joins u v e = joins v u e.
Proof.
  unfold joins. apply bool_decide_ext. tauto.
Qed.

Lemma joins_ends (u v : ident) (e e' : edge) :
  source e' = source e -> target e' = target e -> joins u v e' = joins u v e.
Proof. unfold joins. intros -> ->. reflexivity. Qed.

Lemma joins_swap (e e' : edge) :
  joins (source e) (target e) e' = joins (source e') (target e') e.
Proof.
  unfold joins. apply bool_decide_ext. intuition congruence.
Qed.

Lemma put_edge_simple (u v : ident) (a : edge_attrs) (es : list edge) :
  simple es -> simple (put_edge u v a es).
Proof.
  induction es as [|e es IH]; simpl.
  - intros _. split; [|exact I]. intros e' He'. apply elem_of_nil in He'.
    destruct He'.
  - intros [He Hes]. destruct (joins u v e) eqn:Hj; simpl.
    + split; [exact He | exact Hes].
    + split; [|apply IH, Hes].
      intros e' He'. apply put_edge_ends in He' as [(e0 & H0 & Hs & Ht) | [Hs Ht]].
      * rewrite (joins_ends _ _ e0 e' Hs Ht). apply He, H0.
      * rewrite joins_swap. rewrite Hs, Ht. exact Hj.
Qed.

Lemma put_edge_length (u v : ident) (a : edge_attrs) (es : list edge) :
  List.length (put_edge u v a es) <= S (List.length es).
Proof.
  induction es as [|e es IH]; simpl; [lia|].
  destruct (joins u v e); simpl; lia.
Qed.

Lemma simple_lookup (es : list edge) (i j : nat) (e1 e2 : edge) :
  simple es -> es !! i = Some e1 -> es !! j = Some e2 ->
  joins (source e1) (target e1) e2 = true -> i = j.
Proof.
  revert i j. induction es as [|e es IH]; intros [|i] [|j] Hs H1 H2 Hj;
    simpl in *; try discriminate; try reflexivity.
  - injection H1 as ->. destruct Hs as [He _].
    rewrite He in Hj by (eapply list_elem_of_lookup_2, H2). discriminate.
  - injection H2 as ->. destruct Hs as [He _].
    rewrite joins_swap, He in Hj by (eapply list_elem_of_lookup_2, H1).
    discriminate.
  - f_equal. destruct Hs as [_ Hs]. eapply IH; eassumption.
Qed.

Lemma fold_add_edge_row_simple (rows : list edge_row) (g : graph) :
  simple (edges g) ->
  simple (edges (fold_left add_edge_row rows g)) /\
  List.length (edges (fold_left add_edge_row rows g))
  <= List.length (edges g) + List.length rows.
Proof.
  revert g. induction rows as [|r rows IH]; intros g Hg; simpl.
  - split; [exact Hg | lia].
  - assert (Hstep : simple (edges (add_edge_row g r)) /\
                    List.length (edges (add_edge_row g r))
                    <= S (List.length (edges g))).
    { unfold add_edge_row.
      destruct (bool_decide _ && bool_decide _); simpl.
      - split; [apply put_edge_simple, Hg | apply put_edge_length].
      - split; [exact Hg | lia]. }
    destruct Hstep as [Hs Hl]. destruct (IH _ Hs) as [Hs' Hl'].
    split; [exact Hs' | lia].
Qed.

(** X19.  The graph returned by [build_networkx_graph] is simple: no two of
    its edges join the same unordered pair of stations, in either
    direction, and it has at most as many edges as the edge table has
    rows. *)
Theorem one_edge_for_each_pair (stations : list station)
    (rows : list edge_row) :
  let G := build_networkx_graph stations rows in
  (forall i j e1 e2,
     edges G !! i = Some e1 -> edges G !! j = Some e2 ->
     (source e1 = source e2 /\ target e1 = target e2) \/
     (source e1 = target e2 /\ target e1 = source e2) ->
     i = j) /\
  number_of_edges G <= List.length rows.
Proof.
  intros G. unfold G, build_networkx_graph, number_of_edges.
  destruct (fold_add_edge_row_simple rows
              (fold_left add_node stations empty_graph)) as [Hs Hl].
  { rewrite fold_add_node_edges. exact I. }
  rewrite fold_add_node_edges in Hl. simpl in Hl.
  split; [|exact Hl].
  intros i j e1 e2 H1 H2 Hsame. eapply simple_lookup; try eassumption.
  apply bool_decide_eq_true_2. intuition congruence.
Qed.

Lemma put_edge_has (u v : ident) (a : edge_attrs) (es : list edge) :
  exists e, e ∈ put_edge u v a es /\ joins u v e = true /\ attrs e = a.
Proof.
  induction es as [|e0 es (e & He & Hj & Ha)]; simpl.
  - eexists. split; [apply list_elem_of_here|]. split; [|reflexivity].
    apply bool_decide_eq_true_2. left. auto.
  - destruct (joins u v e0) eqn:Hj0.
    + eexists. split; [apply list_elem_of_here|]. split; [|reflexivity].
      rewrite <- Hj0. apply joins_ends; reflexivity.
    + exists e. split; [apply list_elem_of_further, He | auto].
Qed.

Lemma put_edge_keeps (u v : ident) (a : edge_attrs) (es : list edge)
    (e : edge) :
  e ∈ es -> joins u v e = false -> e ∈ put_edge u v a es.
Proof.
  intros He Hj. induction es as [|e0 es IH]; simpl.
  - apply elem_of_nil in He. destruct He.
  - apply elem_of_cons in He as [<- | He].
    + rewrite Hj. apply list_elem_of_here.
    + destruct (joins u v e0); apply list_elem_of_further; auto.
Qed.

Lemma joins_on_pair (u v : ident) (r : edge_row) (e : edge) :
  joins u v e = true ->
  joins (source_station r) (target_station r) e = true ->
  on_pair u v r = true.
Proof.
  unfold joins, on_pair. intros Huv Hr.
  apply bool_decide_eq_true_1 in Huv, Hr.
  apply bool_decide_eq_true_2. intuition congruence.
Qed.

Lemma fold_add_edge_row_keeps (rows : list edge_row) (g : graph)
    (u v : ident) (e : edge) :
  e ∈ edges g -> joins u v e = true ->
  (forall r, r ∈ rows -> on_pair u v r = false) ->
  e ∈ edges (fold_left add_edge_row rows g).
Proof.
  revert g. induction rows as [|r rows IH]; intros g He Hj Hrows; simpl;
    [exact He|].
  apply IH; [|exact Hj|].
  - unfold add_edge_row.
    destruct (bool_decide _ && bool_decide _); simpl; [|exact He].
    apply put_edge_keeps; [exact He|].
    destruct (joins (source_station r) (target_station r) e) eqn:Hr;
      [|reflexivity].
    specialize (Hrows r (list_elem_of_here _ _)).
    rewrite (joins_on_pair u v r e Hj Hr) in Hrows. discriminate.
  - intros r' Hr'. apply Hrows, list_elem_of_further, Hr'.
Qed.

(** X20.  An edge row between two stations of the table puts its
    attributes on the edge of its pair, and they stay there until a later
    row names the same pair in either direction: the last row of a pair
    decides the attributes of its edge. *)
Theorem last_row_of_a_pair_wins (stations : list station)
    (l1 : list edge_row) (r : edge_row) (l2 : list edge_row) :
  source_station r ∈ station_ids stations ->
  target_station r ∈ station_ids stations ->
  (forall r', r' ∈ l2 ->
     on_pair (source_station r) (target_station r) r' = false) ->
  exists e,
    e ∈ edges (build_networkx_graph stations (l1 ++ r :: l2)) /\
    ((source e = source_station r /\ target e = target_station r) \/
     (source e = target_station r /\ target e = source_station r)) /\
    attrs e = attrs_of_row r.
Proof.
  intros Hs Ht Hl2. unfold build_networkx_graph.
  rewrite fold_left_app. simpl.
  set (g1 := fold_left add_edge_row l1 (fold_left add_node stations empty_graph)).
  assert (Hdom : dom (nodes g1) = station_ids stations).
  { apply (build_networkx_graph_dom stations l1). }
  destruct (put_edge_has (source_station r) (target_station r)
              (attrs_of_row r) (edges g1)) as (e & He & Hj & Ha).
  exists e. split; [|split; [|exact Ha]].
  - apply (fold_add_edge_row_keeps l2 _ (source_station r) (target_station r));
      [|exact Hj|exact Hl2].
    unfold add_edge_row. rewrite Hdom.
    rewrite !bool_decide_eq_true_2 by assumption. exact He.
  - apply bool_decide_eq_true_1 in Hj. exact Hj.
Qed.

Lemma fold_add_node_lookup (l : list station) (g : graph) (n : ident) :
  n ∉ station_ids l ->
  nodes (fold_left add_node l g) !! n = nodes g !! n.
Proof.
  unfold station_ids. revert g.
  induction l as [|s l IH]; intros g Hn; simpl; [reflexivity|].
  simpl in Hn. apply not_elem_of_union in Hn as [Hs Hl].
  rewrite IH by exact Hl. simpl. apply lookup_insert_ne.
  intros Heq. apply Hs, elem_of_singleton. congruence.
Qed.

Lemma size_list_to_set_le (l : list ident) :
  size (list_to_set l : gset ident) <= List.length l.
Proof.
  induction l as [|x l IH].
  - rewrite list_to_set_nil, size_empty. simpl. lia.
  - rewrite list_to_set_cons, size_union_alt, size_singleton. simpl.
    assert (Hsub : list_to_set l ∖ {[x]} ⊆ (list_to_set l : gset ident)).
    { intros y Hy. apply elem_of_difference in Hy as [Hy _]. exact Hy. }
    apply subseteq_size in Hsub. lia.
Qed.

(** X21.  The nodes of the graph returned by [build_networkx_graph] carry
    the attributes of the last station row with their identifier, and the
    graph has one node for each distinct identifier, so at most as many
    nodes as the station table has rows. *)
Theorem nodes_keep_the_last_station_row (stations : list station)
    (rows : list edge_row) :
  let G := build_networkx_graph stations rows in
  (forall l1 s l2,
     stations = l1 ++ s :: l2 ->
     (forall s', s' ∈ l2 -> station_id s' <> station_id s) ->
     nodes G !! station_id s = Some (Some s)) /\
  number_of_nodes G = size (station_ids stations) /\
  number_of_nodes G <= List.length stations.
Proof.
  intros G.
  assert (Hsize : number_of_nodes G = size (station_ids stations)).
  { unfold number_of_nodes, G.
    rewrite <- size_dom, build_networkx_graph_dom. reflexivity. }
  split; [|split; [exact Hsize|]].
  - intros l1 s l2 -> Hl2. unfold G, build_networkx_graph.
    rewrite fold_add_edge_row_nodes, fold_left_app. simpl.
    rewrite fold_add_node_lookup.
    + simpl. apply lookup_insert_eq.
    + unfold station_ids. intros Hin.
      apply elem_of_list_to_set, list_elem_of_fmap in Hin as (s' & Heq & Hs').
      apply (Hl2 s' Hs'). congruence.
  - rewrite Hsize. unfold station_ids.
    etransitivity; [apply size_list_to_set_le|]. rewrite length_fmap.
    reflexivity.
Qed.

End AnalysisRun.

(** ** The lines of the map *)

Section MapLines.

Import BuildAndPlot.
Local Open Scope nat_scope.
Context `{PandasLib}.

Lemma fold_station_coords (l : list station) (m : gmap ident (value * value))
    (i : ident) :
  is_Some (fold_left
             (fun m row => <[station_id row := (latitude row, longitude row)]> m)
             l m !! i) <->
  i ∈ (station_id <$> l) \/ is_Some (m !! i).
Proof.
  revert m. induction l as [|s l IH]; intros m; simpl.
  - rewrite elem_of_nil. tauto.
  - rewrite IH, elem_of_cons, lookup_insert_is_Some.
    destruct (decide (station_id s = i)); intuition congruence.
Qed.

Lemma station_coords_known (valid : list station) (i : ident) :
  is_Some (station_coords valid !! i) <-> i ∈ (station_id <$> valid).
Proof.
  unfold station_coords. rewrite fold_station_coords, lookup_empty.
  split; [intros [Hi | [x Hx]]; [exact Hi | discriminate] | auto].
Qed.

Lemma valid_coords_ids (stations : list station) (i : ident) :
  i ∈ (station_id <$> valid_coords stations) <-> has_coords stations i.
Proof.
  unfold valid_coords, has_coords. split.
  - intros Hi. apply list_elem_of_fmap in Hi as (s' & -> & Hs').
    apply list_elem_of_In, List.filter_In in Hs' as [Hs' Hok].
    apply list_elem_of_In, list_elem_of_fmap in Hs' as (s & -> & Hs).
    apply andb_prop in Hok as [Hlat Hlon]. exists s. auto.
  - intros (s & Hs & <- & Hlat & Hlon).
    apply list_elem_of_fmap. exists (with_numeric_coords s).
    split; [reflexivity|].
    apply list_elem_of_In, List.filter_In. split.
    + apply list_elem_of_In, list_elem_of_fmap. eauto.
    + simpl. rewrite Hlat, Hlon. reflexivity.
Qed.

Lemma railway_line_drawn (coords : gmap ident (value * value))
    (row : edge_row) :
  railway_line coords row <> [] <->
  is_Some (coords !! source_station row) /\
  is_Some (coords !! target_station row).
Proof.
  unfold railway_line. split.
  - intros Hd.
    destruct (coords !! source_station row) as [a|],
             (coords !! target_station row) as [b|];
      try (exfalso; apply Hd; reflexivity).
    split; eauto.
  - intros [[a Ha] [b Hb]]. rewrite Ha, Hb. discriminate.
Qed.

(** X18.  A line is drawn on the map for an edge row exactly when each of
    its two stations has a row with numeric latitude and longitude; there
    are at most as many lines as edge rows; and every line drawn joins two
    nodes of the graph built from the same tables. *)
Theorem lines_join_located_stations (stations : list station)
    (rows : list edge_row) :
  let coords := station_coords (valid_coords stations) in
  (forall row, railway_line coords row <> [] <->
     has_coords stations (source_station row) /\
     has_coords stations (target_station row)) /\
  List.length (railway_lines stations rows) <= List.length rows /\
  (forall row, railway_line coords row <> [] ->
     source_station row ∈ dom (nodes (build_networkx_graph stations rows)) /\
     target_station row ∈ dom (nodes (build_networkx_graph stations rows))).
Proof.
  intros coords.
  assert (Hdrawn : forall row, railway_line coords row <> [] <->
     has_coords stations (source_station row) /\
     has_coords stations (target_station row)).
  { intros row. unfold coords.
    rewrite railway_line_drawn, !station_coords_known, !valid_coords_ids.
    reflexivity. }
  split; [exact Hdrawn|]. split.
  - unfold railway_lines. fold coords.
    induction rows as [|r rows IH]; simpl; [lia|].
    rewrite length_app. unfold railway_line at 1.
    destruct (coords !! source_station r), (coords !! target_station r);
      simpl; lia.
  - intros row Hrow. apply Hdrawn in Hrow as [Hs Ht].
    rewrite build_networkx_graph_dom. unfold station_ids.
    destruct Hs as (s & Hs & <- & _), Ht as (t & Ht & <- & _).
    split; apply elem_of_list_to_set, list_elem_of_fmap; eauto.
Qed.

End MapLines.

(** ** Runs for the further properties *)

Section AssignmentRuns.

Import AssignProvinces.
Local Existing Instance ExampleLib.lib.
Local Open Scope nat_scope.

(** Three rows, two of them of the station at (1, 1), and three cities, one
    without latitude. *)
Lemma main_counts_witness :
  exists st,
    main [station_1_1; station_text; station_1_1] [CityX; CityLost; CityY]
    = Ok st /\
    (src <$> rows st
     = drop_duplicates [station_1_1; station_text; station_1_1] /\
     filled st = List.length (filter was_assigned (rows st)) /\
     no_coords st = List.length (filter was_skipped (rows st)) /\
     filled st + no_coords st
     = List.length (drop_duplicates [station_1_1; station_text; station_1_1])).
Proof.
  eexists. split; [vm_compute; reflexivity|].
  apply (main_counts_every_station
           [station_1_1; station_text; station_1_1] [CityX; CityLost; CityY]).
  vm_compute. reflexivity.
Defined.

Example main_counts_run :
  exists st,
    main [station_1_1; station_text; station_1_1] [CityX; CityLost; CityY]
    = Ok st /\ filled st = 1 /\ no_coords st = 1 /\
    nearest_city <$> rows st = [VStr (py "CityX"); VStr []].
Proof. eexists. split; [vm_compute; reflexivity|]. repeat split. Qed.

Lemma main_fails_without_cities_witness :
  main [station_text; station_1_1] [CityLost] = Raise ValueError \/
  main [station_text; station_1_1] [CityLost] = Raise OverflowError.
Proof.
  apply (main_fails_without_cities
           [station_text; station_1_1] [CityLost] station_1_1 1 1).
  - vm_compute. reflexivity.
  - apply list_elem_of_further, list_elem_of_here.
  - reflexivity.
  - reflexivity.
Defined.

(** The loop body prefers CityBeyond, whose latitude is infinite and whose
    distance is NaN, to the nearer CityX. *)
Lemma first_nan_distance_wins_witness :
  exists st' r,
    step ([CityX] ++ CityBeyond :: [CityY]) start station_1_1 = Ok st' /\
    rows st' = rows start ++ [r] /\
    filled st' = S (filled start) /\
    no_coords st' = no_coords start /\
    src r = station_1_1 /\
    prov_assign_method r = py "assigned_by_nearest_city" /\
    nearest_city r = Name_EN CityBeyond /\
    province_code r = Province CityBeyond /\
    province_name r = province_cn (Province CityBeyond) /\
    is_nan (distance_to_city_km r) = true.
Proof.
  apply (first_nan_distance_wins [CityX] CityBeyond [CityY] start
           station_1_1 1 1).
  - reflexivity.
  - reflexivity.
  - intros c Hc. apply list_elem_of_singleton in Hc as ->.
    vm_compute. reflexivity.
  - vm_compute. reflexivity.
Defined.

(** Two rows of the station at (1, 1) around another station: the output
    has the first of them and the other station. *)
Lemma main_keeps_first_rows_witness :
  exists st,
    main [station_1_1; station_text; station_1_1] [CityX; CityLost; CityY]
    = Ok st /\
    (sublist (src <$> rows st) [station_1_1; station_text; station_1_1] /\
     NoDup (station_id <$> (src <$> rows st)) /\
     (forall i, i ∈ (station_id <$> (src <$> rows st)) <->
                i ∈ (station_id <$> [station_1_1; station_text; station_1_1])) /\
     (forall s, s ∈ (src <$> rows st) <->
                exists l1 l2,
                  [station_1_1; station_text; station_1_1] = l1 ++ s :: l2 /\
                  station_id s ∉ (station_id <$> l1))).
Proof.
  eexists. split; [vm_compute; reflexivity|].
  apply (main_keeps_the_first_row_of_each_station
           [station_1_1; station_text; station_1_1] [CityX; CityLost; CityY]).
  vm_compute. reflexivity.
Defined.

(** The rows of the run above: the station at (1, 1) is given CityX, a city
    with both coordinates. *)
Lemma assigned_rows_witness :
  exists st r,
    main [station_1_1; station_text; station_1_1] [CityX; CityLost; CityY]
    = Ok st /\
    rows st !! 0 = Some r /\
    ((prov_assign_method r = py "no_coords" /\
      province_code r = VStr [] /\ province_name r = VStr [] /\
      nearest_city r = VStr [] /\ is_nan (distance_to_city_km r) = true) \/
     exists c lon lat,
       c ∈ [CityX; CityLost; CityY] /\
       is_nan (Lat c) = false /\ is_nan (Long c) = false /\
       py_float (longitude (src r)) = Ok lon /\
       py_float (latitude (src r)) = Ok lat /\
       prov_assign_method r = py "assigned_by_nearest_city" /\
       nearest_city r = Name_EN c /\
       province_code r = Province c /\
       province_name r = province_cn (Province c) /\
       distance_to_city_km r = great_circle_km lon lat (Long c) (Lat c)).
Proof.
  eexists. eexists. split; [vm_compute; reflexivity|].
  split; [reflexivity|].
  eapply (assigned_rows_come_from_located_cities
            [station_1_1; station_text; station_1_1] [CityX; CityLost; CityY]).
  - vm_compute. reflexivity.
  - apply list_elem_of_here.
Defined.

End AssignmentRuns.

Section FurtherNetworkRuns.

Import BuildNetwork.
Local Existing Instance ExampleLib.lib.
Local Open Scope nat_scope.

Lemma normalize_name_witness :
  exists s,
    normalize_name (VStr (py " Bei-Jing (East) ")) = str_lower s /\
    forall c, c ∈ s ->
      is_punctuation c = false /\ (is_space c = true -> c = 32%N).
Proof.
  apply (normalize_name_lowers_a_clean_string (VStr (py " Bei-Jing (East) "))).
  reflexivity.
Defined.

Example normalize_name_run :
  normalize_name (VStr (py " Bei-Jing (East) ")) = py "beijing east".
Proof. reflexivity. Qed.

(** Alpha and Beta with three records, the second to an unknown station. *)
Lemma edges_follow_records_witness :
  exists st,
    build_graph [Alpha; Beta]
      [track_1990; track_return; track_unknown; track_2005] = Ok st /\
    ((forall u v,
        Forall2 carries (edges_between (G st) u v)
          (records_between (name_to_id [Alpha; Beta]) u v
             [track_1990; track_return; track_unknown; track_2005]) /\
        key <$> edges_between (G st) u v
        = seq 0 (List.length
                   (records_between (name_to_id [Alpha; Beta]) u v
                      [track_1990; track_return; track_unknown; track_2005])))
     /\
     edges_added st = List.length (edges (G st)) /\
     edges_added st
     = List.length (List.filter (resolvable (name_to_id [Alpha; Beta]))
                      [track_1990; track_return; track_unknown; track_2005])).
Proof.
  eexists. split; [vm_compute; reflexivity|].
  apply (edges_follow_the_resolvable_records
           [Alpha; Beta] [track_1990; track_return; track_unknown; track_2005]).
  vm_compute. reflexivity.
Defined.

(** The records from Alpha to Beta in that run are those of 1990 and 2005,
    the record from Beta to Alpha is the one without a year. *)
Example records_between_run :
  records_between (name_to_id [Alpha; Beta]) S1 S2
    [track_1990; track_return; track_unknown; track_2005]
  = [track_1990; track_2005] /\
  records_between (name_to_id [Alpha; Beta]) S2 S1
    [track_1990; track_return; track_unknown; track_2005]
  = [track_return].
Proof. split; vm_compute; reflexivity. Qed.

Lemma edges_join_stations_witness :
  exists st,
    build_graph [Alpha; Beta] [track_1990; track_unknown; track_2005] = Ok st /\
    (nodes (G st) = nodes (add_nodes [Alpha; Beta] empty_graph) /\
     dom (nodes (G st)) = ids_of [Alpha; Beta] /\
     forall e, e ∈ edges (G st) ->
       truthy (source e) = true /\ truthy (target e) = true /\
       source e ∈ ids_of [Alpha; Beta] /\ target e ∈ ids_of [Alpha; Beta]).
Proof.
  eexists. split; [vm_compute; reflexivity|].
  apply (edges_join_stations_of_the_table
           [Alpha; Beta] [track_1990; track_unknown; track_2005]).
  vm_compute. reflexivity.
Defined.

Lemma keys_witness :
  exists st,
    build_graph [Alpha; Beta] [track_1990; track_unknown; track_2005] = Ok st /\
    (keys_count_parallel_edges (edges (G st)) /\
     forall i j e1 e2,
       edges (G st) !! i = Some e1 -> edges (G st) !! j = Some e2 -> i <> j ->
       source e1 = source e2 -> target e1 = target e2 ->
       key e1 <> key e2).
Proof.
  eexists. split; [vm_compute; reflexivity|].
  apply (keys_number_the_parallel_edges
           [Alpha; Beta] [track_1990; track_unknown; track_2005]).
  vm_compute. reflexivity.
Defined.

Example keys_run :
  exists st,
    build_graph [Alpha; Beta] [track_1990; track_unknown; track_2005] = Ok st /\
    key <$> edges (G st) = [0; 1] /\
    missing_stations st = [VStr (py "Gamma")].
Proof. eexists. split; [vm_compute; reflexivity|]. split; reflexivity. Qed.

Lemma missing_stations_witness :
  exists st,
    build_graph [Alpha; Beta] [track_1990; track_unknown; track_2005] = Ok st /\
    (missing_stations st
     = flat_map (unresolved_labels (name_to_id [Alpha; Beta]))
         [track_1990; track_unknown; track_2005] /\
     forall label,
       label ∈ missing_stations st <->
       exists row, row ∈ [track_1990; track_unknown; track_2005] /\
         ((label = start_station row /\
           truthy_opt (start_id (name_to_id [Alpha; Beta]) row) = false) \/
          (label = end_station row /\
           truthy_opt (end_id (name_to_id [Alpha; Beta]) row) = false))).
Proof.
  eexists. split; [vm_compute; reflexivity|].
  apply (missing_stations_are_the_unresolved_labels
           [Alpha; Beta] [track_1990; track_unknown; track_2005]).
  vm_compute. reflexivity.
Defined.

(** The edge of the record of 2005, the second from Alpha to Beta. *)
Lemma edge_years_witness :
  exists st e,
    build_graph [Alpha; Beta]
      [track_1990; track_return; track_unknown; track_2005] = Ok st /\
    source e = S1 /\ target e = S2 /\ key e = 1%nat /\
    exists row,
      records_between (name_to_id [Alpha; Beta]) (source e) (target e)
        [track_1990; track_return; track_unknown; track_2005]
        !! key e = Some row /\
      e_year_raw (attrs e) = year row /\
      ((pd_isna (year row) = true /\ e_year (attrs e) = None) \/
       (pd_isna (year row) = false /\
        exists y, e_year (attrs e) = Some y /\ py_int (year row) = Ok y)).
Proof.
  eexists.
  exists {| source := S1; target := S2; key := 1;
            attrs := {| e_length := VFloat 12.5; e_year := Some 2005%Z;
                        e_year_raw := VInt 2005;
                        e_type := VStr (py "rail_pass");
                        e_edge_id := VNone |} |}.
  split; [vm_compute; reflexivity|].
  split; [reflexivity|]. split; [reflexivity|]. split; [reflexivity|].
  eapply (edge_years_are_never_inferred
            [Alpha; Beta] [track_1990; track_return; track_unknown; track_2005]).
  - vm_compute. reflexivity.
  - vm_compute. apply list_elem_of_further, list_elem_of_further,
      list_elem_of_here.
Defined.


Lemma rail_counts_witness :
  exists c,
    rail_edges graph_1990_2005 = Done c /\
    edges_for_map c <= rail_edges_total c
    <= List.length (edges graph_1990_2005).
Proof.
  eexists. split; [vm_compute; reflexivity|].
  apply (rail_counts_are_ordered graph_1990_2005).
  vm_compute. reflexivity.
Defined.

Example rail_counts_run :
  rail_edges graph_1990_2005
  = Done {| rail_edges_total := 2; edges_for_map := 2 |}.
Proof. vm_compute. reflexivity. Qed.

(** Alpha and the nameless station share the identifier S1: the node keeps
    the attributes of the nameless one, the later row. *)
Lemma add_nodes_witness :
  nodes (add_nodes [Alpha; Beta; Nameless] empty_graph) !! station_id Nameless
  = Some (Some (node_attrs_of Nameless)).
Proof.
  destruct (add_nodes_keeps_last_row [Alpha; Beta; Nameless]) as (_ & _ & Hlast).
  apply (Hlast [Alpha; Beta] Nameless []).
  - reflexivity.
  - intros s Hs. apply elem_of_nil in Hs. destruct Hs.
Defined.

End FurtherNetworkRuns.

Section FurtherAnalysisRuns.

Import BuildAndPlot.
Local Existing Instance ExampleLib.pandas.
Local Open Scope nat_scope.

(** A segment from A to B, then one from B to A. *)
Lemma last_row_witness :
  exists e,
    e ∈ edges (build_networkx_graph [plain_station A; plain_station B]
                 ([segment A B 1 10] ++ segment B A 2 20 :: [])) /\
    ((source e = source_station (segment B A 2 20) /\
      target e = target_station (segment B A 2 20)) \/
     (source e = target_station (segment B A 2 20) /\
      target e = source_station (segment B A 2 20))) /\
    attrs e = attrs_of_row (segment B A 2 20).
Proof.
  apply (last_row_of_a_pair_wins [plain_station A; plain_station B]
           [segment A B 1 10] (segment B A 2 20) []).
  - vm_compute. reflexivity.
  - vm_compute. reflexivity.
  - intros r Hr. apply elem_of_nil in Hr. destruct Hr.
Defined.

(** Stations of 1990 and 2000, segments of 2000 and 2010: the year 2000. *)
Example latest_year_run :
  load_and_process_data
    [(Some 1990%Z, plain_station A); (Some 2000%Z, plain_station A);
     (None, plain_station B); (Some 2000%Z, plain_station B)]
    [(Some 2000%Z, segment A B 1 10); (Some 2010%Z, segment A B 2 20)]
    None
  = ([(Some 2000%Z, plain_station A); (Some 2000%Z, plain_station B)],
     [(Some 2000%Z, segment A B 1 10)],
     Some 2000%Z).
Proof. reflexivity. Qed.

(** B has no numeric latitude: the segment is in the graph, not on the
    map. *)
Example unlocated_station_run :
  railway_lines [plain_station A; unlocated_station B] [segment A B 1 10] = [] /\
  number_of_edges
    (build_networkx_graph [plain_station A; unlocated_station B]
       [segment A B 1 10]) = 1.
Proof. split; vm_compute; reflexivity. Qed.

(** The tables of the run above: 2000 is at least 1990 and has a station. *)
Lemma latest_year_witness :
  let result :=
    load_and_process_data
      [(Some 1990%Z, plain_station A); (Some 2000%Z, plain_station A);
       (None, plain_station B); (Some 2000%Z, plain_station B)]
      [(Some 2000%Z, segment A B 1 10); (Some 2010%Z, segment A B 2 20)]
      None in
  exists y s',
    result.2 = Some y /\ (1990 <= y)%Z /\ (Some y, s') ∈ result.1.1.
Proof.
  intros result.
  destruct (latest_station_year_is_selected
              [(Some 1990%Z, plain_station A); (Some 2000%Z, plain_station A);
               (None, plain_station B); (Some 2000%Z, plain_station B)]
              [(Some 2000%Z, segment A B 1 10); (Some 2010%Z, segment A B 2 20)])
    as (Hlatest & _ & _).
  apply (Hlatest 1990%Z (plain_station A)). apply list_elem_of_here.
Defined.

(** A and B have coordinates: the line of their segment joins two nodes. *)
Lemma lines_witness :
  source_station (segment A B 1 10)
    ∈ dom (nodes (build_networkx_graph [plain_station A; plain_station B]
                    [segment A B 1 10])) /\
  target_station (segment A B 1 10)
    ∈ dom (nodes (build_networkx_graph [plain_station A; plain_station B]
                    [segment A B 1 10])).
Proof.
  destruct (lines_join_located_stations [plain_station A; plain_station B]
              [segment A B 1 10]) as (_ & _ & Hnodes).
  apply Hnodes. vm_compute. discriminate.
Defined.

(** Segments from A to B and from B to A: one edge. *)
Lemma one_edge_witness :
  number_of_edges
    (build_networkx_graph [plain_station A; plain_station B]
       [segment A B 1 10; segment B A 2 20]) <= 2.
Proof.
  destruct (one_edge_for_each_pair [plain_station A; plain_station B]
              [segment A B 1 10; segment B A 2 20]) as [_ Hle].
  exact Hle.
Defined.

Example one_edge_run :
  edges (build_networkx_graph [plain_station A; plain_station B]
           [segment A B 1 10; segment B A 2 20])
  = [ {| source := A; target := B; attrs := attrs_of_row (segment B A 2 20) |} ].
Proof. vm_compute. reflexivity. Qed.

(** Two rows for station A: the node keeps the later one. *)
Lemma nodes_witness :
  nodes (build_networkx_graph [plain_station A; unlocated_station A] [])
    !! station_id (unlocated_station A)
  = Some (Some (unlocated_station A)).
Proof.
  destruct (nodes_keep_the_last_station_row
              [plain_station A; unlocated_station A] []) as (Hlast & _).
  apply (Hlast [plain_station A] (unlocated_station A) []).
  - reflexivity.
  - intros s Hs. apply elem_of_nil in Hs. destruct Hs.
Defined.

End FurtherAnalysisRuns.
